(** * The offline-cache service worker of the wedding invitation site

    A shallow embedding of the worker script (install, activate, fetch and
    message listeners) together with the part of the browser it talks to:
    cache storage, the network and message ports.

    The worker is event driven.  Every listener is embedded as a function
    from the state of the world before the event to the settled outcome of
    the listener and the state of the world after it.  Promise chains
    ([.then], [.catch]) become binds of a small state-and-rejection monad.
    The trace of a listener lists the calls it makes, in the order in which
    the script makes them.  Events are looked at one after the other; for
    the one promise that the script starts and does not wait for (the put of
    the fetch listener) the model has both views: the world when the page is
    answered, with the put pending, and the world once the put has settled.

    Outside the model: the headers of a response other than Vary, the
    comparison of the headers that Vary names when a cache is asked, URL
    fragments, storage quota and console output. *)

From Stdlib Require Import String Ascii List ZArith Bool Lia.
Import ListNotations.

Local Open Scope string_scope.
Local Open Scope list_scope.

(** ** JavaScript strings *)

(** [s.startsWith(p)] *)
Definition startsWith (s p : string) : bool := String.prefix p s.

(** [s.includes(sub)]: [sub] occurs somewhere in [s]. *)
Fixpoint includes (s sub : string) : bool :=
  if String.prefix sub s then true
  else match s with
       | EmptyString => false
       | String _ rest => includes rest sub
       end.

(** Header names are compared without regard to ASCII case. *)
Definition lower_ascii (c : ascii) : ascii :=
  let n := nat_of_ascii c in
  if andb (Nat.leb 65 n) (Nat.leb n 90) then ascii_of_nat (n + 32) else c.

Fixpoint lower (s : string) : string :=
  match s with
  | EmptyString => EmptyString
  | String c rest => String (lower_ascii c) (lower rest)
  end.

Fixpoint join (sep : string) (l : list string) : string :=
  match l with
  | [] => ""
  | [x] => x
  | x :: rest => x ++ sep ++ join sep rest
  end.

(** ** Requests, responses, errors *)

Inductive ResponseType :=
  basic | cors | default | error | opaque | opaqueredirect.

Definition ResponseType_eqb (a b : ResponseType) : bool :=
  match a, b with
  | basic, basic | cors, cors | default, default
  | error, error | opaque, opaque | opaqueredirect, opaqueredirect => true
  | _, _ => false
  end.

(** [vary] holds the field values of the response's Vary header. *)
Record Response := mkResponse {
  status : Z;
  type : ResponseType;
  body : string;
  vary : list string
}.

(** The response has the header [Vary: *]. *)
Definition varies_on_all (r : Response) : bool :=
  existsb (String.eqb "*") (vary r).

Inductive RequestMode := mode_cors | mode_no_cors | mode_same_origin | mode_navigate.

Definition Headers := list (string * string).

(** [headers.get(name)]: [null] when no header has that name, otherwise the
    values of the headers of that name joined by a comma and a space. *)
Definition headers_get (h : Headers) (name : string) : option string :=
  match filter (fun kv => lower (fst kv) =? lower name) h with
  | [] => None
  | hits => Some (join ", " (map snd hits))
  end.

Record Request := mkRequest {
  url : string;
  method : string;
  mode : RequestMode;
  headers : Headers
}.

(** What a promise can be rejected with, or a statement can throw. *)
Inductive JsError :=
  | NetworkError (reason : string)
  | TypeError (message : string)
  | InvalidStateError.

(** The engine's complaint about [null.includes(...)]. *)
Definition null_includes : JsError :=
  TypeError "Cannot read properties of null (reading 'includes')".

(** The engine's complaint about [undefined.postMessage(...)]. *)
Definition undefined_postMessage : JsError :=
  TypeError "Cannot read properties of undefined (reading 'postMessage')".

Inductive Settled (A : Type) :=
  | Fulfilled (a : A)
  | Rejected (e : JsError).
Arguments Fulfilled {A} a.
Arguments Rejected {A} e.

(** The network, as the worker sees it through [fetch]: a request settles
    with a response (possibly a missing one, which the code tests for) or is
    rejected.  Nothing is assumed about which requests succeed, nor about the
    response a request gets.  (A browser answers a cross-origin request made
    in no-cors mode with an opaque response, whose status reads 0.) *)
Definition Network := Request -> Settled (option Response).

(** ** Cache storage *)

(** A cache is the Cache API's request-response list.  Only GET requests can
    be stored, so an entry is keyed by the request's URL. *)
Definition Cache := list (string * Response).

(** Cache storage: the named caches, oldest first. *)
Definition CacheStorage := list (string * Cache).

(** [cache.match(url)]: the first stored response for that URL. *)
Fixpoint cache_match (c : Cache) (u : string) : option Response :=
  match c with
  | [] => None
  | (k, r) :: rest => if k =? u then Some r else cache_match rest u
  end.

Definition cache_remove (c : Cache) (u : string) : Cache :=
  filter (fun e => negb (fst e =? u)) c.

(** [cache.put(url, r)]: entries matching the request are removed and the new
    pair is appended. *)
Definition cache_put (c : Cache) (u : string) (r : Response) : Cache :=
  cache_remove c u ++ [(u, r)].

(** The batch of puts that a successful [addAll] performs. *)
Fixpoint cache_put_all (c : Cache) (entries : list (string * Response)) : Cache :=
  match entries with
  | [] => c
  | (u, r) :: rest => cache_put_all (cache_put c u r) rest
  end.

Definition names (s : CacheStorage) : list string := map fst s.

Definition has_cache (s : CacheStorage) (name : string) : bool :=
  existsb (fun b => fst b =? name) s.

(** The cache called [name], if there is one. *)
Fixpoint find_cache (s : CacheStorage) (name : string) : option Cache :=
  match s with
  | [] => None
  | (n, c) :: rest => if n =? name then Some c else find_cache rest name
  end.

(** [caches.open(name)] creates an empty cache when none has that name. *)
Definition storage_open (s : CacheStorage) (name : string) : CacheStorage :=
  if has_cache s name then s else s ++ [(name, [])].

(** [caches.delete(name)] *)
Definition storage_delete (s : CacheStorage) (name : string) : CacheStorage :=
  filter (fun b => negb (fst b =? name)) s.

(** A write through the handle that [caches.open(name)] gave. *)
Fixpoint storage_update (s : CacheStorage) (name : string) (f : Cache -> Cache)
  : CacheStorage :=
  match s with
  | [] => []
  | (n, c) :: rest =>
      if n =? name then (n, f c) :: rest
      else (n, c) :: storage_update rest name f
  end.

(** [caches.match(url)] asks every cache in turn, oldest first. *)
Fixpoint storage_match (s : CacheStorage) (u : string) : option Response :=
  match s with
  | [] => None
  | (_, c) :: rest =>
      match cache_match c u with
      | Some r => Some r
      | None => storage_match rest u
      end
  end.

(** ** The world and its effects *)

Inductive Effect :=
  | CachesOpen (name : string)
  | CachesKeys
  | CachesDelete (name : string)
  | CachesMatch (u : string)
  | CacheAddAll (name : string) (urls : list string)
  | CachePut (name : string) (u : string)
  | NetFetch (r : Request)
  | SkipWaiting
  | ClientsClaim
  | PostMessage (port : nat) (version : string).

Record World := mkWorld {
  caches : CacheStorage;
  trace : list Effect
}.

Definition emit (e : Effect) (w : World) : World :=
  mkWorld (caches w) (trace w ++ [e]).

Definition set_caches (s : CacheStorage) (w : World) : World :=
  mkWorld s (trace w).

(** A computation that ends in a settled promise. *)
Definition Js (A : Type) := World -> Settled A * World.

Definition Promise_resolve {A} (a : A) : Js A := fun w => (Fulfilled a, w).

Definition throw {A} (e : JsError) : Js A := fun w => (Rejected e, w).

Definition then_ {A B} (p : Js A) (f : A -> Js B) : Js B :=
  fun w =>
    match p w with
    | (Fulfilled a, w') => f a w'
    | (Rejected e, w') => (Rejected e, w')
    end.

Definition catch_ {A} (p : Js A) (handler : JsError -> Js A) : Js A :=
  fun w =>
    match p w with
    | (Fulfilled a, w') => (Fulfilled a, w')
    | (Rejected e, w') => handler e w'
    end.

(** A promise whose outcome nothing looks at, once it has settled: its
    effects have happened, its outcome is dropped. *)
Definition detached {A} (p : Js A) : Js unit :=
  fun w => (Fulfilled tt, snd (p w)).

(** A promise that was started earlier and settles to [r]. *)
Definition started {A} (r : Settled A) : Js A := fun w => (r, w).

(** The two views of a chain [p.then(k)] that the script starts and does
    not wait for: [p] is the call made at once, [k] its callback. *)
Definition Unawaited := Js string -> (string -> Js unit) -> Js unit.

(** The call has been made; the callback has not run yet. *)
Definition pending : Unawaited :=
  fun p k => then_ p (fun _ => Promise_resolve tt).

(** The callback has run as well. *)
Definition settled : Unawaited :=
  fun p k => then_ p k.

Declare Scope js_scope.
Delimit Scope js_scope with js.
Notation "x <- p ;; k" := (then_ p (fun x => k))
  (at level 61, p at next level, right associativity) : js_scope.
Notation "p ;;; k" := (then_ p (fun _ => k))
  (at level 61, right associativity) : js_scope.
Local Open Scope js_scope.

(** ** The browser's side of the API *)

Definition caches_open (name : string) : Js string :=
  fun w =>
    (Fulfilled name,
     set_caches (storage_open (caches w) name) (emit (CachesOpen name) w)).

Definition caches_keys : Js (list string) :=
  fun w => (Fulfilled (names (caches w)), emit CachesKeys w).

Definition caches_delete (name : string) : Js bool :=
  fun w =>
    (Fulfilled (has_cache (caches w) name),
     set_caches (storage_delete (caches w) name) (emit (CachesDelete name) w)).

(** A request whose method is not GET matches nothing. *)
Definition caches_match (r : Request) : Js (option Response) :=
  fun w =>
    (Fulfilled (if method r =? "GET" then storage_match (caches w) (url r)
                else None),
     emit (CachesMatch (url r)) w).

Definition fetch (net : Network) (r : Request) : Js (option Response) :=
  fun w => (net r, emit (NetFetch r) w).

(** [cache.put(request, response)] refuses a request that is not a GET, a
    partial (206) response and a response with [Vary: *]. *)
Definition cache_put_request (cache : string) (r : Request) (resp : Response)
  : Js unit :=
  fun w =>
    if negb (method r =? "GET") then
      (Rejected (TypeError "Request method is unsupported"), w)
    else if (status resp =? 206)%Z then
      (Rejected (TypeError "Partial response (status code 206) is unsupported"), w)
    else if varies_on_all resp then
      (Rejected (TypeError "Vary header contains *"), w)
    else
      (Fulfilled tt,
       set_caches (storage_update (caches w) cache
                     (fun c => cache_put c (url r) resp))
                  (emit (CachePut cache (url r)) w)).

(** What [addAll] accepts from the network for one request: a response that
    is not an error, has an ok status (200 to 299), is not partial and has
    no [Vary: *]. *)
Definition addAll_accepts (o : Settled (option Response)) : option Response :=
  match o with
  | Fulfilled (Some r) =>
      if negb (ResponseType_eqb (type r) error)
         && (200 <=? status r)%Z && (status r <=? 299)%Z
         && negb (status r =? 206)%Z
         && negb (varies_on_all r)
      then Some r else None
  | _ => None
  end.

(** The entries of the batch, when every request of it was answered
    acceptably. *)
Fixpoint addAll_entries (net : Network) (reqs : list Request)
  : option (list (string * Response)) :=
  match reqs with
  | [] => Some []
  | q :: rest =>
      match addAll_accepts (net q), addAll_entries net rest with
      | Some r, Some l => Some ((url q, r) :: l)
      | _, _ => None
      end
  end.

Fixpoint has_duplicate (l : list string) : bool :=
  match l with
  | [] => false
  | x :: rest => existsb (String.eqb x) rest || has_duplicate rest
  end.

(** [cache.addAll(requests)]: every request is fetched; the responses are
    stored in one batch, and only when all of them were acceptable.  If one
    request fails, or two requests of the batch have the same key, the
    promise is rejected and the cache is left as it was. *)
Definition cache_addAll (net : Network) (cache : string) (reqs : list Request)
  : Js unit :=
  fun w =>
    if negb (forallb (fun q => method q =? "GET") reqs) then
      (Rejected (TypeError "Request method is unsupported"), w)
    else
      let w1 := mkWorld (caches w)
                  (trace w ++ CacheAddAll cache (map url reqs)
                           :: map NetFetch reqs) in
      match addAll_entries net reqs with
      | None => (Rejected (TypeError "Request failed"), w1)
      | Some entries =>
          if has_duplicate (map url reqs) then (Rejected InvalidStateError, w1)
          else (Fulfilled tt,
                set_caches (storage_update (caches w1) cache
                              (fun c => cache_put_all c entries)) w1)
      end.

Definition skipWaiting : Js unit := fun w => (Fulfilled tt, emit SkipWaiting w).

Definition clients_claim : Js unit := fun w => (Fulfilled tt, emit ClientsClaim w).

Definition postMessage (port : nat) (version : string) : Js unit :=
  fun w => (Fulfilled tt, emit (PostMessage port version) w).

(** [Promise.all]: every promise of the list runs; the result is rejected
    when one of them is. *)
Fixpoint Promise_all {A} (ps : list (Js A)) : Js (list A) :=
  fun w =>
    match ps with
    | [] => (Fulfilled [], w)
    | p :: rest =>
        let (r, w1) := p w in
        let (rs, w2) := Promise_all rest w1 in
        (match r, rs with
         | Fulfilled a, Fulfilled l => Fulfilled (a :: l)
         | Rejected e, _ => Rejected e
         | _, Rejected e => Rejected e
         end, w2)
    end.

(** ** The worker script *)

Definition CACHE_NAME : string := "wedding-invitation-v1.0.0".

Definition urlsToCache : list string := [
  "/";
  "/index.html";
  "/css/styles.css";
  "/js/script.js";
  "/assets/background.png";
  "/assets/wedding-music.mp3";
  "/assets/invitation-card.pdf";
  "/manifest.json";
  "https://i.pinimg.com/originals/f6/27/91/f62791c3d0e3e2c3a0b3e0e3e3d8e3c3.png";
  "https://maps.app.goo.gl/ctKUnnbbKhS6xQcz7"
].

(** What the page receives for an intercepted request: either the listener
    returned without calling [respondWith] and the browser handles the
    request itself, or the promise given to [respondWith] settled. *)
Inductive FetchResult :=
  | NotIntercepted
  | RespondWith (r : Settled (option Response)).

Record MessageData := mkMessageData {
  data_type : string;
  data_urls : list string
}.

(** [event.data] is [None] when it is a falsy value. *)
Record MessageEvent := mkMessageEvent {
  data : option MessageData;
  ports : list nat
}.

Section Worker.

(** [self.location.origin], such as ["https://example.org"]. *)
Variable origin : string.

(** A URL string given to the worker is resolved against the worker's
    location.  The worker only uses paths that start with a slash and
    absolute URLs; other relative forms are not modelled. *)
Definition resolve_url (u : string) : string :=
  if startsWith u "/" then origin ++ u else u.

(** [new Request(url, { mode })]: a GET request without headers. *)
Definition new_Request (u : string) (m : RequestMode) : Request :=
  mkRequest (resolve_url u) "GET" m [].

(** The requests that the install listener hands to [addAll]. *)
Definition manifest_requests : list Request :=
  map (fun u => new_Request u mode_no_cors) urlsToCache.

(** The promise given to [event.waitUntil] by the install listener, from
    the point where [caches.open(CACHE_NAME)] has been called and settles to
    [opened]. *)
Definition install_population (net : Network) (opened : Settled string)
  : Js unit :=
  catch_
    (cache <- started opened ;;
     cache_addAll net cache manifest_requests)
    (fun _error => Promise_resolve tt).

(** The install listener.  [caches.open(CACHE_NAME)] is called first, then
    [self.skipWaiting()], while the promise is still pending; the callbacks
    of the promise run after that, and the outcome of the event is that of
    the promise. *)
Definition on_install (net : Network) : Js unit :=
  fun w =>
    let (opened, w1) := caches_open CACHE_NAME w in
    let (_, w2) := skipWaiting w1 in
    install_population net opened w2.

(** The callback of [caches.keys().then(...)] in the activate listener. *)
Definition activate_cleanup (cacheNames : list string)
  : Js (list (option bool)) :=
  Promise_all
    (map (fun cacheName =>
            if negb (cacheName =? CACHE_NAME)
            then (deleted <- caches_delete cacheName ;;
                  Promise_resolve (Some deleted))
            else Promise_resolve None)
         cacheNames).

(** The activate listener.  [caches.keys()] is called first, then
    [self.clients.claim()]; the callback that deletes runs after that.
    Both promises are waited for. *)
Definition on_activate : Js unit :=
  fun w =>
    let (listed, w1) := caches_keys w in
    let (r2, w2) := clients_claim w1 in
    let (r1, w3) := (cacheNames <- started listed ;;
                     activate_cleanup cacheNames) w2 in
    (match r1 with
     | Fulfilled _ => r2
     | Rejected e => Rejected e
     end, w3).

(** The promise given to [event.respondWith] by the fetch listener.  The
    chain [caches.open(CACHE_NAME).then(cache => cache.put(...))] is started
    and not waited for; [unawaited] is the view taken of it. *)
Definition respond_as (unawaited : Unawaited) (net : Network)
    (request : Request) : Js (option Response) :=
  response <- caches_match request ;;
  match response with
  | Some cached => Promise_resolve (Some cached)
  | None =>
      let fetchRequest := request in
      catch_
        (response <- fetch net fetchRequest ;;
         match response with
         | None => Promise_resolve None
         | Some r =>
             if negb (status r =? 200)%Z
                || negb (ResponseType_eqb (type r) basic)
             then Promise_resolve (Some r)
             else
               let responseToCache := r in
               (if startsWith (url request) origin
                then detached
                       (unawaited
                          (caches_open CACHE_NAME)
                          (fun cache =>
                             cache_put_request cache request responseToCache))
                else Promise_resolve tt) ;;;
               Promise_resolve (Some r)
         end)
        (fun error =>
           match headers_get (headers request) "accept" with
           | None => throw null_includes
           | Some accept =>
               if includes accept "text/html"
               then caches_match (new_Request "/index.html" mode_cors)
               else throw error
           end)
  end.

(** The fetch listener, under a view of the put that it does not wait
    for. *)
Definition on_fetch_as (unawaited : Unawaited) (net : Network)
    (request : Request) : World -> FetchResult * World :=
  fun w =>
    if negb (method request =? "GET") then (NotIntercepted, w)
    else if includes (url request) "maps.app.goo.gl" then (NotIntercepted, w)
    else let (r, w') := respond_as unawaited net request w in
         (RespondWith r, w').

(** The promise given to [event.respondWith], and the world once the put it
    started has settled. *)
Definition respond (net : Network) (request : Request) : Js (option Response) :=
  respond_as settled net request.

(** The fetch listener, and the world once the put it started has
    settled. *)
Definition on_fetch (net : Network) (request : Request)
  : World -> FetchResult * World :=
  on_fetch_as settled net request.

(** The fetch listener, and the world at the moment the page is answered:
    the put it started is pending. *)
Definition on_fetch_answered (net : Network) (request : Request)
  : World -> FetchResult * World :=
  on_fetch_as pending net request.

Definition has_type (event : MessageEvent) (t : string) : bool :=
  match data event with
  | Some d => data_type d =? t
  | None => false
  end.

Definition event_urls (event : MessageEvent) : list string :=
  match data event with
  | Some d => data_urls d
  | None => []
  end.

(** The message listener: three statements, one after the other. *)
Definition on_message (net : Network) (event : MessageEvent) : Js unit :=
  (if has_type event "SKIP_WAITING" then skipWaiting else Promise_resolve tt) ;;;
  (if has_type event "GET_VERSION" then
     match ports event with
     | port0 :: _ => postMessage port0 CACHE_NAME
     | [] => throw undefined_postMessage
     end
   else Promise_resolve tt) ;;;
  (if has_type event "CACHE_URLS" then
     cache <- caches_open CACHE_NAME ;;
     cache_addAll net cache
       (map (fun u => new_Request u mode_cors) (event_urls event))
   else Promise_resolve tt).

End Worker.

(** ** Definitions used to state the properties *)

(** The world once the cache was asked and the network was tried. *)
Definition after_miss (request : Request) (w : World) : World :=
  emit (NetFetch request) (emit (CachesMatch (url request)) w).

(** The caches after a usable response was stored for [request]. *)
Definition caches_after_store (s : CacheStorage) (request : Request)
    (r : Response) : CacheStorage :=
  storage_update (storage_open s CACHE_NAME) CACHE_NAME
    (fun c => cache_put c (url request) r).

(** The callback that the activate listener maps over the cache names. *)
Definition cleanup_callback (cacheName : string) : Js (option bool) :=
  if negb (cacheName =? CACHE_NAME)
  then (deleted <- caches_delete cacheName ;; Promise_resolve (Some deleted))
  else Promise_resolve None.

(** A cache survives the deletions asked for by the names of [l] when each of
    those names is the current one or is not its own. *)
Definition survives (l : list string) (b : string * Cache) : bool :=
  forallb (fun n => (n =? CACHE_NAME) || negb (fst b =? n)) l.

(** [s] ends with [p]. *)
Fixpoint ends_with (s p : string) : bool :=
  if s =? p then true
  else match s with
       | EmptyString => false
       | String _ rest => ends_with rest p
       end.

(** The manifest entries that are paths, and those that are absolute. *)
Definition local_paths : list string := firstn 8 urlsToCache.
Definition absolute_urls : list string := skipn 8 urlsToCache.

(** The entries of [c] whose key is not among [keys]. *)
Definition without_keys (keys : list string) (c : Cache) : Cache :=
  filter (fun e => negb (existsb (String.eqb (fst e)) keys)) c.

Definition accepted (net : Network) (q : Request) : bool :=
  match addAll_accepts (net q) with
  | Some _ => true
  | None => false
  end.

(** The effects of the install listener, whatever the network answers. *)
Definition install_trace (origin : string) (w : World) : list Effect :=
  ((trace w ++ [CachesOpen CACHE_NAME]) ++ [SkipWaiting])
  ++ CacheAddAll CACHE_NAME (map url (manifest_requests origin))
     :: map NetFetch (manifest_requests origin).

(** Cache names are unique, and a cache holds at most one entry per key. *)
Definition storage_wf (s : CacheStorage) : Prop :=
  NoDup (names s) /\ Forall (fun b => NoDup (map fst (snd b))) s.

Definition maps_link : string := "https://maps.app.goo.gl/ctKUnnbbKhS6xQcz7".

(** ** Concrete requests, networks and worlds *)

Definition site : string := "https://wedding.example".

Definition page (content : string) : Response :=
  mkResponse 200 basic content [].

Definition nothing_cached : World := mkWorld [] [].

(** A network on which only the image host cannot be reached. *)
Definition image_host_down : Network :=
  fun q =>
    if includes (url q) "i.pinimg.com"
    then Rejected (NetworkError "Failed to fetch")
    else Fulfilled (Some (page (url q))).

(** A network that cannot be reached at all. *)
Definition offline : Network :=
  fun _ => Rejected (NetworkError "Failed to fetch").

(** A network as a browser presents it to a worker at [site]: its own pages
    are readable, the answer of another origin to a no-cors request is
    opaque. *)
Definition other_origins_opaque : Network :=
  fun q =>
    if startsWith (url q) site
    then Fulfilled (Some (page (url q)))
    else Fulfilled (Some (mkResponse 0 opaque "" [])).

(** A network that answers everything with the same readable response. *)
Definition always (r : Response) : Network := fun _ => Fulfilled (Some r).

Definition get (u : string) (h : Headers) : Request :=
  mkRequest u "GET" mode_cors h.

Definition index_request : Request := new_Request site "/index.html" mode_no_cors.

(** A CACHE_URLS message that names the maps link. *)
Definition cache_maps_link : MessageEvent :=
  mkMessageEvent (Some (mkMessageData "CACHE_URLS" [maps_link])) [].

Definition map_page : Response := mkResponse 200 cors "map" [].

Definition rsvp_post : Request :=
  mkRequest "https://wedding.example/rsvp" "POST" mode_cors
    [("content-type", "application/json")].

(** A world in which the maps link happens to be cached. *)
Definition maps_cached : World :=
  mkWorld [(CACHE_NAME, [(maps_link, map_page)])] [].

Definition missing_photo : Request :=
  get "https://wedding.example/assets/photo.png" [("accept", "image/png,*/*")].

Definition not_found : Response := mkResponse 404 basic "Not Found" [].

Definition about_page : Request :=
  get "https://wedding.example/about.html"
    [("Accept", "text/html,application/xhtml+xml,*/*;q=0.8")].

Definition shell : Response := page "<html>invitation</html>".

(** A world in which the root document is cached. *)
Definition shell_cached : World :=
  mkWorld [(CACHE_NAME, [("https://wedding.example/index.html", shell)])] [].

Definition bare_request : Request := get "https://wedding.example/data.json" [].

Definition styles_request : Request :=
  get "https://wedding.example/css/theme.css" [("accept", "text/css,*/*;q=0.1")].

Definition styles : Response := page "body { margin: 0 }".

(** The same stylesheet, served with [Vary: *]. *)
Definition styles_vary_all : Response :=
  mkResponse 200 basic "body { margin: 0 }" ["*"].

(** Two stale caches around the current one. *)
Definition after_upgrade : World :=
  mkWorld [("wedding-invitation-v0.9.0", [("https://wedding.example/", shell)]);
           (CACHE_NAME, [("https://wedding.example/index.html", shell)]);
           ("fonts", [])] [].

Definition version_query : MessageEvent :=
  mkMessageEvent (Some (mkMessageData "GET_VERSION" [])) [4].

(** ** The sync, push and notification listeners *)

(** [doBackgroundSync()] *)
Definition doBackgroundSync : Js unit := Promise_resolve tt.

(** The sync listener waits for [doBackgroundSync()] when the tag is
    'background-sync' and does nothing for another tag. *)
Definition on_sync (tag : string) : Js unit :=
  if tag =? "background-sync" then doBackgroundSync else Promise_resolve tt.

Module NotificationAction.
Record t := mk {
  action : string;
  title : string;
  icon : string
}.
End NotificationAction.

Module NotificationOptions.
Record data_t := mkData {
  dateOfArrival : Z;
  primaryKey : Z
}.
Record t := mk {
  body : string;
  icon : string;
  badge : string;
  vibrate : list Z;
  data : data_t;
  actions : list NotificationAction.t
}.
End NotificationOptions.

(** What the user gets to see. *)
Inductive UiEffect :=
  | ShowNotification (title : string) (options : NotificationOptions.t)
  | NotificationClose
  | OpenWindow (u : string).

(** The options that the push listener builds; [payload] is the text of
    [event.data] when there is data, [now] is [Date.now()]. *)
Definition push_options (payload : option string) (now : Z)
  : NotificationOptions.t :=
  NotificationOptions.mk
    (match payload with
     | Some text => text
     | None => "New update available!"
     end)
    "/icons/icon-192x192.png"
    "/icons/badge-72x72.png"
    [100; 50; 100]%Z
    (NotificationOptions.mkData now 1)
    [NotificationAction.mk "explore" "View Invitation" "/icons/checkmark.png";
     NotificationAction.mk "close" "Close" "/icons/xmark.png"].

(** The push listener; [shown] is what [showNotification] settles to. *)
Definition on_push (payload : option string) (now : Z) (shown : Settled unit)
  : Settled unit * list UiEffect :=
  (shown, [ShowNotification "Wedding Invitation" (push_options payload now)]).

(** The notificationclick listener; [opened] is what [clients.openWindow]
    settles to. *)
Definition on_notificationclick (action : string) (opened : Settled unit)
  : Settled unit * list UiEffect :=
  if action =? "explore" then
    (opened, [NotificationClose; OpenWindow "/"])
  else if action =? "close" then
    (Fulfilled tt, [NotificationClose; NotificationClose])
  else
    (opened, [NotificationClose; OpenWindow "/"]).

(** ** The worker as a whole *)

(** The worker's surroundings: cache storage with the trace of the calls
    made, and what was shown to the user. *)
Record Host := mkHost {
  world : World;
  ui : list UiEffect
}.

(** The events that the script listens to, each with what the surroundings
    answer while it is handled. *)
Inductive Event :=
  | Install (net : Network)
  | Activate
  | Fetch (net : Network) (request : Request)
  | Message (net : Network) (event : MessageEvent)
  | Sync (tag : string)
  | Push (payload : option string) (now : Z) (shown : Settled unit)
  | NotificationClick (action : string) (opened : Settled unit)
  | GlobalError
  | UnhandledRejection.

(** One event, handled by its listener.  The two error listeners only
    write to the console. *)
Definition dispatch (origin : string) (e : Event) (h : Host) : Host :=
  match e with
  | Install net => mkHost (snd (on_install origin net (world h))) (ui h)
  | Activate => mkHost (snd (on_activate (world h))) (ui h)
  | Fetch net request =>
      mkHost (snd (on_fetch origin net request (world h))) (ui h)
  | Message net event =>
      mkHost (snd (on_message origin net event (world h))) (ui h)
  | Sync tag => mkHost (snd (on_sync tag (world h))) (ui h)
  | Push payload now shown =>
      mkHost (world h) (ui h ++ snd (on_push payload now shown))
  | NotificationClick action opened =>
      mkHost (world h) (ui h ++ snd (on_notificationclick action opened))
  | GlobalError => h
  | UnhandledRejection => h
  end.

(** A sequence of events, handled one after the other. *)
Definition run (origin : string) (events : list Event) (h : Host) : Host :=
  fold_left (fun h e => dispatch origin e h) events h.

(** Every stored pair of a URL and a response, over all caches. *)
Definition stored_entries (s : CacheStorage) : list (string * Response) :=
  flat_map snd s.

(** The status of a response is in the ok range. *)
Definition ok_status (r : Response) : Prop := (200 <= status r <= 299)%Z.

(** The requests that a CACHE_URLS message hands to [addAll]. *)
Definition message_requests (origin : string) (event : MessageEvent)
  : list Request :=
  map (fun u => new_Request origin u mode_cors) (event_urls event).

(** The request that install makes for the maps link. *)
Definition maps_request : Request :=
  mkRequest "https://maps.app.goo.gl/ctKUnnbbKhS6xQcz7" "GET" mode_no_cors [].

(** A letter or a digit. *)
Definition is_alnum (c : ascii) : bool :=
  let n := nat_of_ascii c in
  (Nat.leb 48 n && Nat.leb n 57)
  || (Nat.leb 65 n && Nat.leb n 90)
  || (Nat.leb 97 n && Nat.leb n 122).

(** The rest of a plain path, after the character [prev]. *)
Fixpoint plain_rest (prev : ascii) (s : string) : bool :=
  match s with
  | EmptyString => negb (Ascii.eqb prev ".")
  | String c rest =>
      (if is_alnum c then true
       else if Ascii.eqb c "." then is_alnum prev
       else if Ascii.eqb c "/"
            then negb (Ascii.eqb prev "/") && negb (Ascii.eqb prev ".")
       else if Ascii.eqb c "-" || Ascii.eqb c "_"
            then negb (Ascii.eqb prev ".")
       else false)
      && plain_rest c rest
  end.

(** A URL string that the browser's URL parser leaves as it is when it
    resolves it against the worker's location: a path that starts with one
    slash, made of letters, digits, hyphens, underscores, single slashes and
    dots, where every dot stands between two letters or digits (so that no
    segment is a dot segment).  For such a string [resolve_url] gives the
    URL that the browser gives. *)
Definition plain_path (u : string) : bool :=
  match u with
  | String c rest => Ascii.eqb c "/" && plain_rest "/" rest
  | EmptyString => false
  end.

(** The effects of the message listener on a CACHE_URLS message. *)
Definition cache_urls_trace (origin : string) (event : MessageEvent)
    (w : World) : list Effect :=
  (trace w ++ [CachesOpen CACHE_NAME])
  ++ CacheAddAll CACHE_NAME (map url (message_requests origin event))
     :: map NetFetch (message_requests origin event).

(** Every stored response has an ok status. *)
Definition stored_ok (s : CacheStorage) : Prop :=
  forall e, In e (stored_entries s) -> ok_status (snd e).

(** Every cache has the current name. *)
Definition only_current (s : CacheStorage) : Prop :=
  forall name, In name (names s) -> name = CACHE_NAME.

(** The effect is a request to the network. *)
Definition is_NetFetch (e : Effect) : bool :=
  match e with
  | NetFetch _ => true
  | _ => false
  end.

(** ** More concrete requests, messages and events *)

Definition root_request : Request := get "https://wedding.example/" [].

Definition library_request : Request :=
  get "https://cdn.example/petals.js" [("accept", "*/*")].

(** Cache storage with a stale cache only. *)
Definition only_stale : World :=
  mkWorld [("wedding-invitation-v0.9.0", [("https://wedding.example/", shell)])]
    [].

Definition empty_message : MessageEvent := mkMessageEvent None [].

Definition version_query_without_port : MessageEvent :=
  mkMessageEvent (Some (mkMessageData "GET_VERSION" [])) [].

Definition cache_gallery : MessageEvent :=
  mkMessageEvent
    (Some (mkMessageData "CACHE_URLS" ["/gallery.html"; "/rsvp.html"])) [].

Definition cache_gallery_and_image : MessageEvent :=
  mkMessageEvent
    (Some (mkMessageData "CACHE_URLS"
             ["/gallery.html"; "https://i.pinimg.com/originals/a.png"])) [].

(** A day in the life of the worker. *)
Definition sample_events : list Event :=
  [Install image_host_down;
   Activate;
   Fetch (always styles) styles_request;
   Message (always shell) cache_gallery;
   Sync "background-sync";
   Push None 0 (Fulfilled tt);
   NotificationClick "explore" (Fulfilled tt);
   Fetch offline about_page;
   GlobalError].

Definition upgraded_host : Host := mkHost after_upgrade [].

(** ** The fetch listener: requests that are not intercepted *)

(** C3: a request whose method is not GET is not intercepted; the listener
    returns at once, without looking into the cache, without asking the
    network and without storing anything: the world is left as it was. *)
Theorem non_get_not_intercepted (origin : string) (net : Network)
    (request : Request) (w : World) :
  method request <> "GET" ->
  on_fetch origin net request w = (NotIntercepted, w).
Proof.
  intros Hm. unfold on_fetch, on_fetch_as.
  destruct (String.eqb_spec (method request) "GET") as [E | _];
    [contradiction | reflexivity].
Qed.

(** C2, for interception: a request whose URL contains the host of the maps
    link is not intercepted; the fetch listener neither serves it from a
    cache nor stores an entry for it. *)
Theorem maps_link_not_intercepted (origin : string) (net : Network)
    (request : Request) (w : World) :
  includes (url request) "maps.app.goo.gl" = true ->
  on_fetch origin net request w = (NotIntercepted, w).
Proof.
  intros Hu. unfold on_fetch, on_fetch_as. rewrite Hu.
  destruct (negb (method request =? "GET")); reflexivity.
Qed.

(** A request that the listener answers is a GET for a URL without the
    host of the maps link. *)
Lemma intercepted_is_get (origin : string) (net : Network) (request : Request)
    (w w' : World) (r : Settled (option Response)) :
  on_fetch origin net request w = (RespondWith r, w') ->
  method request = "GET" /\ includes (url request) "maps.app.goo.gl" = false.
Proof.
  unfold on_fetch, on_fetch_as.
  destruct (String.eqb_spec (method request) "GET") as [E | _]; simpl;
    [| discriminate].
  destruct (includes (url request) "maps.app.goo.gl"); [discriminate |].
  intros _. split; [exact E | reflexivity].
Qed.

(** ** The fetch listener: the miss path *)

Section MissPath.

Variable origin : string.
Variable net : Network.
Variable request : Request.
Variable w : World.

Hypothesis is_get : method request = "GET".
Hypothesis not_maps : includes (url request) "maps.app.goo.gl" = false.
Hypothesis miss : storage_match (caches w) (url request) = None.

Lemma on_fetch_as_responds (unawaited : Unawaited) :
  on_fetch_as origin unawaited net request w =
  (RespondWith (fst (respond_as origin unawaited net request w)),
   snd (respond_as origin unawaited net request w)).
Proof.
  unfold on_fetch_as. rewrite is_get, not_maps. simpl.
  destruct (respond_as origin unawaited net request w); reflexivity.
Qed.

Lemma respond_as_miss_unfold (unawaited : Unawaited) :
  respond_as origin unawaited net request w =
  match net request with
  | Fulfilled None => (Fulfilled None, after_miss request w)
  | Fulfilled (Some r) =>
      if negb (status r =? 200)%Z || negb (ResponseType_eqb (type r) basic)
      then (Fulfilled (Some r), after_miss request w)
      else
        ((if startsWith (url request) origin
          then detached
                 (unawaited
                    (caches_open CACHE_NAME)
                    (fun cache => cache_put_request cache request r))
          else Promise_resolve tt) ;;;
         Promise_resolve (Some r)) (after_miss request w)
  | Rejected failure =>
      match headers_get (headers request) "accept" with
      | None => (Rejected null_includes, after_miss request w)
      | Some accept =>
          if includes accept "text/html"
          then caches_match (new_Request origin "/index.html" mode_cors)
                 (after_miss request w)
          else (Rejected failure, after_miss request w)
      end
  end.
Proof.
  unfold respond_as, then_, catch_, caches_match, fetch, after_miss.
  rewrite is_get. simpl. rewrite miss.
  destruct (net request) as [[r |] | e]; simpl; try reflexivity.
  - destruct (negb (status r =? 200)%Z || negb (ResponseType_eqb (type r) basic));
      simpl; [reflexivity |].
    destruct (startsWith (url request) origin); reflexivity.
  - destruct (headers_get (headers request) "accept") as [a |]; [| reflexivity].
    destruct (includes a "text/html"); reflexivity.
Qed.

Lemma on_fetch_responds :
  on_fetch origin net request w =
  (RespondWith (fst (respond origin net request w)),
   snd (respond origin net request w)).
Proof. apply on_fetch_as_responds. Qed.

Lemma respond_miss_unfold :
  respond origin net request w =
  match net request with
  | Fulfilled None => (Fulfilled None, after_miss request w)
  | Fulfilled (Some r) =>
      if negb (status r =? 200)%Z || negb (ResponseType_eqb (type r) basic)
      then (Fulfilled (Some r), after_miss request w)
      else
        ((if startsWith (url request) origin
          then detached
                 (cache <- caches_open CACHE_NAME ;;
                  cache_put_request cache request r)
          else Promise_resolve tt) ;;;
         Promise_resolve (Some r)) (after_miss request w)
  | Rejected failure =>
      match headers_get (headers request) "accept" with
      | None => (Rejected null_includes, after_miss request w)
      | Some accept =>
          if includes accept "text/html"
          then caches_match (new_Request origin "/index.html" mode_cors)
                 (after_miss request w)
          else (Rejected failure, after_miss request w)
      end
  end.
Proof. apply (respond_as_miss_unfold settled). Qed.

End MissPath.

(** C5: on a cache miss the network is asked, and a network response that is
    missing, or whose status is not 200, or whose type is not "basic", is
    handed to the page as it is; no cache is written. *)
Theorem unusable_response_returned_uncached (origin : string) (net : Network)
    (request : Request) (w : World) (response : option Response) :
  method request = "GET" ->
  includes (url request) "maps.app.goo.gl" = false ->
  storage_match (caches w) (url request) = None ->
  net request = Fulfilled response ->
  (response = None \/
   exists r, response = Some r /\ (status r <> 200%Z \/ type r <> basic)) ->
  on_fetch origin net request w =
    (RespondWith (Fulfilled response), after_miss request w)
  /\ caches (after_miss request w) = caches w
  /\ trace (after_miss request w) =
       trace w ++ [CachesMatch (url request); NetFetch request].
Proof.
  intros Hget Hmaps Hmiss Hnet Hbad.
  split; [| split].
  - rewrite (on_fetch_responds origin net request w Hget Hmaps).
    rewrite (respond_miss_unfold origin net request w Hget Hmiss), Hnet.
    destruct Hbad as [-> | [r [-> Hr]]]; [reflexivity |].
    assert (Hguard : negb (status r =? 200)%Z
                     || negb (ResponseType_eqb (type r) basic) = true).
    { destruct Hr as [Hs | Ht].
      - apply Z.eqb_neq in Hs. rewrite Hs. reflexivity.
      - apply orb_true_iff. right.
        destruct (type r); simpl; try reflexivity. contradiction. }
    rewrite Hguard. reflexivity.
  - reflexivity.
  - unfold after_miss, emit. simpl. rewrite <- app_assoc. reflexivity.
Qed.

(** C7: when the network request of the miss path is rejected, a request
    whose Accept header contains "text/html" is answered with whatever the
    caches hold for the root document /index.html; a request whose Accept
    header does not contain it gets the network's rejection, and in no case
    without "text/html" is a response substituted. *)
Theorem network_failure_fallback (origin : string) (net : Network)
    (request : Request) (w : World) (failure : JsError) :
  method request = "GET" ->
  includes (url request) "maps.app.goo.gl" = false ->
  storage_match (caches w) (url request) = None ->
  net request = Rejected failure ->
  (forall accept,
      headers_get (headers request) "accept" = Some accept ->
      includes accept "text/html" = true ->
      on_fetch origin net request w =
        (RespondWith
           (Fulfilled (storage_match (caches w) (origin ++ "/index.html"))),
         emit (CachesMatch (origin ++ "/index.html")) (after_miss request w)))
  /\ (forall accept,
      headers_get (headers request) "accept" = Some accept ->
      includes accept "text/html" = false ->
      on_fetch origin net request w =
        (RespondWith (Rejected failure), after_miss request w))
  /\ ((forall accept,
         headers_get (headers request) "accept" = Some accept ->
         includes accept "text/html" = false) ->
      exists e, on_fetch origin net request w =
                  (RespondWith (Rejected e), after_miss request w)).
Proof.
  intros Hget Hmaps Hmiss Hnet.
  rewrite (on_fetch_responds origin net request w Hget Hmaps).
  rewrite (respond_miss_unfold origin net request w Hget Hmiss), Hnet.
  split; [| split].
  - intros a Ha Hhtml. rewrite Ha, Hhtml. reflexivity.
  - intros a Ha Hhtml. rewrite Ha, Hhtml. reflexivity.
  - intros Hno.
    destruct (headers_get (headers request) "accept") as [a |].
    + rewrite (Hno a eq_refl). exists failure. reflexivity.
    + exists null_includes. reflexivity.
Qed.

(** C10: when the network request of the miss path is rejected and the
    request has no Accept header, the rejection handler calls [includes] on
    [null]: the promise given to [respondWith] is rejected with that type
    error, whatever the network failure was; the fallback document is not
    looked up and the network's own rejection is not passed on. *)
Theorem missing_accept_header_faults (origin : string) (net : Network)
    (request : Request) (w : World) (failure : JsError) :
  method request = "GET" ->
  includes (url request) "maps.app.goo.gl" = false ->
  storage_match (caches w) (url request) = None ->
  net request = Rejected failure ->
  headers_get (headers request) "accept" = None ->
  on_fetch origin net request w =
    (RespondWith (Rejected null_includes), after_miss request w)
  /\ (exists message, null_includes = TypeError message)
  /\ trace (after_miss request w) =
       trace w ++ [CachesMatch (url request); NetFetch request].
Proof.
  intros Hget Hmaps Hmiss Hnet Hacc.
  rewrite (on_fetch_responds origin net request w Hget Hmaps).
  rewrite (respond_miss_unfold origin net request w Hget Hmiss), Hnet, Hacc.
  split; [reflexivity | split].
  - eexists. reflexivity.
  - unfold after_miss, emit. simpl. rewrite <- app_assoc. reflexivity.
Qed.

(** ** The message listener *)

(** C9: a GET_VERSION message that comes with a reply port makes the
    listener post exactly one message, on the first port, and that message
    carries the name of the current cache. *)
Theorem get_version_replies_once (origin : string) (net : Network)
    (event : MessageEvent) (port0 : nat) (others : list nat) (w : World) :
  has_type event "GET_VERSION" = true ->
  ports event = port0 :: others ->
  on_message origin net event w =
    (Fulfilled tt, emit (PostMessage port0 CACHE_NAME) w)
  /\ trace (snd (on_message origin net event w)) =
       trace w ++ [PostMessage port0 "wedding-invitation-v1.0.0"]
  /\ caches (snd (on_message origin net event w)) = caches w.
Proof.
  intros Ht Hp.
  assert (E : on_message origin net event w =
              (Fulfilled tt, emit (PostMessage port0 CACHE_NAME) w)).
  { unfold on_message, has_type in *.
    destruct (data event) as [d |]; [| discriminate].
    apply String.eqb_eq in Ht. rewrite Ht, Hp. reflexivity. }
  rewrite E. repeat split; reflexivity.
Qed.

(** ** Facts about caches and cache storage *)

Lemma cache_match_app (c1 c2 : Cache) (u : string) :
  cache_match (c1 ++ c2) u =
  match cache_match c1 u with
  | Some r => Some r
  | None => cache_match c2 u
  end.
Proof.
  induction c1 as [| [k r] c1 IH]; simpl; [reflexivity |].
  destruct (k =? u); [reflexivity | exact IH].
Qed.

Lemma cache_match_remove_same (c : Cache) (u : string) :
  cache_match (cache_remove c u) u = None.
Proof.
  induction c as [| [k r] c IH]; simpl; [reflexivity |].
  destruct (k =? u) eqn:E; simpl; [exact IH |].
  rewrite E. exact IH.
Qed.

Lemma cache_match_remove_other (c : Cache) (u v : string) :
  u <> v -> cache_match (cache_remove c u) v = cache_match c v.
Proof.
  intros Hne.
  induction c as [| [k r] c IH]; simpl; [reflexivity |].
  destruct (String.eqb_spec k u) as [-> | Hk]; simpl.
  - destruct (String.eqb_spec u v) as [E | _]; [contradiction | exact IH].
  - destruct (k =? v); [reflexivity | exact IH].
Qed.

Lemma cache_match_put_same (c : Cache) (u : string) (r : Response) :
  cache_match (cache_put c u r) u = Some r.
Proof.
  unfold cache_put. rewrite cache_match_app, cache_match_remove_same.
  simpl. rewrite String.eqb_refl. reflexivity.
Qed.

Lemma cache_match_put_other (c : Cache) (u v : string) (r : Response) :
  u <> v -> cache_match (cache_put c u r) v = cache_match c v.
Proof.
  intros Hne. unfold cache_put.
  rewrite cache_match_app, (cache_match_remove_other c u v Hne). simpl.
  destruct (String.eqb_spec u v) as [E | _]; [contradiction |].
  destruct (cache_match c v); reflexivity.
Qed.

Lemma has_cache_find (s : CacheStorage) (name : string) :
  has_cache s name = true <-> exists c, find_cache s name = Some c.
Proof.
  induction s as [| [n c] s IH]; simpl.
  - split; [discriminate | intros [c H]; discriminate].
  - destruct (n =? name); simpl.
    + split; [intros _; exists c; reflexivity | reflexivity].
    + exact IH.
Qed.

Lemma has_cache_app (s1 s2 : CacheStorage) (name : string) :
  has_cache (s1 ++ s2) name = has_cache s1 name || has_cache s2 name.
Proof. unfold has_cache. apply existsb_app. Qed.

Lemma has_cache_open (s : CacheStorage) (name : string) :
  has_cache (storage_open s name) name = true.
Proof.
  unfold storage_open. destruct (has_cache s name) eqn:E; [exact E |].
  rewrite has_cache_app. simpl. rewrite String.eqb_refl.
  apply orb_true_iff. right. reflexivity.
Qed.

Lemma storage_open_idem (s : CacheStorage) (name : string) :
  storage_open (storage_open s name) name = storage_open s name.
Proof.
  unfold storage_open at 1. rewrite has_cache_open. reflexivity.
Qed.

Lemma storage_match_app (s1 s2 : CacheStorage) (u : string) :
  storage_match (s1 ++ s2) u =
  match storage_match s1 u with
  | Some r => Some r
  | None => storage_match s2 u
  end.
Proof.
  induction s1 as [| [n c] s1 IH]; simpl; [reflexivity |].
  destruct (cache_match c u); [reflexivity | exact IH].
Qed.

Lemma storage_match_open (s : CacheStorage) (name u : string) :
  storage_match (storage_open s name) u = storage_match s u.
Proof.
  unfold storage_open. destruct (has_cache s name); [reflexivity |].
  rewrite storage_match_app. simpl.
  destruct (storage_match s u); reflexivity.
Qed.

Lemma has_cache_update (s : CacheStorage) (name n : string) (f : Cache -> Cache) :
  has_cache (storage_update s name f) n = has_cache s n.
Proof.
  induction s as [| [k c] s IH]; simpl; [reflexivity |].
  destruct (k =? name); simpl; [reflexivity |].
  rewrite IH. reflexivity.
Qed.

Lemma names_update (s : CacheStorage) (name : string) (f : Cache -> Cache) :
  names (storage_update s name f) = names s.
Proof.
  induction s as [| [k c] s IH]; simpl; [reflexivity |].
  destruct (k =? name); simpl; [reflexivity |].
  f_equal. exact IH.
Qed.

Lemma find_cache_update (s : CacheStorage) (name : string) (f : Cache -> Cache) :
  find_cache (storage_update s name f) name = option_map f (find_cache s name).
Proof.
  induction s as [| [k c] s IH]; simpl; [reflexivity |].
  destruct (k =? name) eqn:E; simpl; rewrite E; [reflexivity | exact IH].
Qed.

Lemma storage_update_update (s : CacheStorage) (name : string)
    (f g : Cache -> Cache) :
  storage_update (storage_update s name f) name g =
  storage_update s name (fun c => g (f c)).
Proof.
  induction s as [| [k c] s IH]; simpl; [reflexivity |].
  destruct (k =? name) eqn:E; simpl; rewrite E; [reflexivity |].
  f_equal. exact IH.
Qed.

Lemma storage_update_ext (s : CacheStorage) (name : string)
    (f g : Cache -> Cache) :
  (forall c, f c = g c) ->
  storage_update s name f = storage_update s name g.
Proof.
  intros Hfg.
  induction s as [| [k c] s IH]; simpl; [reflexivity |].
  destruct (k =? name); [rewrite Hfg; reflexivity | f_equal; exact IH].
Qed.

(** A response put into an existing cache is found by [caches.match] when
    no cache held the URL before. *)
Lemma storage_match_after_put (s : CacheStorage) (name u : string) (r : Response) :
  has_cache s name = true ->
  storage_match s u = None ->
  storage_match (storage_update s name (fun c => cache_put c u r)) u = Some r.
Proof.
  induction s as [| [k c] s IH]; simpl; [discriminate |].
  intros Hhas Hmiss.
  destruct (cache_match c u) eqn:Ec; [discriminate |].
  destruct (k =? name) eqn:Ek; simpl.
  - rewrite cache_match_put_same. reflexivity.
  - rewrite Ec. apply IH; assumption.
Qed.

(** ** The fetch listener: lazy caching *)

Lemma on_fetch_stores (origin : string) (net : Network) (request : Request)
    (w : World) (r : Response) :
  method request = "GET" ->
  includes (url request) "maps.app.goo.gl" = false ->
  storage_match (caches w) (url request) = None ->
  net request = Fulfilled (Some r) ->
  status r = 200%Z ->
  type r = basic ->
  startsWith (url request) origin = true ->
  varies_on_all r = false ->
  on_fetch origin net request w =
    (RespondWith (Fulfilled (Some r)),
     mkWorld (caches_after_store (caches w) request r)
       (trace w ++ [CachesMatch (url request); NetFetch request;
                    CachesOpen CACHE_NAME;
                    CachePut CACHE_NAME (url request)])).
Proof.
  intros Hget Hmaps Hmiss Hnet Hs Ht Hor Hvary.
  rewrite (on_fetch_responds origin net request w Hget Hmaps).
  rewrite (respond_miss_unfold origin net request w Hget Hmiss), Hnet.
  rewrite Hs, Ht, Hor. simpl.
  unfold then_, detached, caches_open, cache_put_request, Promise_resolve.
  simpl. rewrite Hget, Hs, Hvary. simpl.
  unfold caches_after_store, set_caches, emit, after_miss. simpl.
  repeat rewrite <- app_assoc. reflexivity.
Qed.

(** The put is refused for a response with [Vary: *]: the cache was opened,
    nothing is stored, and nobody hears of the refusal. *)
Lemma on_fetch_put_refused (origin : string) (net : Network)
    (request : Request) (w : World) (r : Response) :
  method request = "GET" ->
  includes (url request) "maps.app.goo.gl" = false ->
  storage_match (caches w) (url request) = None ->
  net request = Fulfilled (Some r) ->
  status r = 200%Z ->
  type r = basic ->
  startsWith (url request) origin = true ->
  varies_on_all r = true ->
  on_fetch origin net request w =
    (RespondWith (Fulfilled (Some r)),
     mkWorld (storage_open (caches w) CACHE_NAME)
       (trace w ++ [CachesMatch (url request); NetFetch request;
                    CachesOpen CACHE_NAME])).
Proof.
  intros Hget Hmaps Hmiss Hnet Hs Ht Hor Hvary.
  rewrite (on_fetch_responds origin net request w Hget Hmaps).
  rewrite (respond_miss_unfold origin net request w Hget Hmiss), Hnet.
  rewrite Hs, Ht, Hor. simpl.
  unfold then_, detached, caches_open, cache_put_request, Promise_resolve.
  simpl. rewrite Hget, Hs, Hvary. simpl.
  unfold set_caches, emit, after_miss. simpl.
  repeat rewrite <- app_assoc. reflexivity.
Qed.

(** When the page is answered the put is pending: the cache was opened and
    nothing is stored yet. *)
Lemma on_fetch_answered_pending (origin : string) (net : Network)
    (request : Request) (w : World) (r : Response) :
  method request = "GET" ->
  includes (url request) "maps.app.goo.gl" = false ->
  storage_match (caches w) (url request) = None ->
  net request = Fulfilled (Some r) ->
  status r = 200%Z ->
  type r = basic ->
  startsWith (url request) origin = true ->
  on_fetch_answered origin net request w =
    (RespondWith (Fulfilled (Some r)),
     mkWorld (storage_open (caches w) CACHE_NAME)
       (trace w ++ [CachesMatch (url request); NetFetch request;
                    CachesOpen CACHE_NAME])).
Proof.
  intros Hget Hmaps Hmiss Hnet Hs Ht Hor.
  unfold on_fetch_answered.
  rewrite (on_fetch_as_responds origin net request w Hget Hmaps).
  rewrite (respond_as_miss_unfold origin net request w Hget Hmiss), Hnet.
  rewrite Hs, Ht, Hor. simpl.
  unfold pending, then_, detached, caches_open, Promise_resolve.
  simpl.
  unfold set_caches, emit, after_miss. simpl.
  repeat rewrite <- app_assoc. reflexivity.
Qed.

Lemma on_fetch_hit (origin : string) (net : Network) (request : Request)
    (w : World) (r : Response) :
  method request = "GET" ->
  includes (url request) "maps.app.goo.gl" = false ->
  storage_match (caches w) (url request) = Some r ->
  on_fetch origin net request w =
    (RespondWith (Fulfilled (Some r)), emit (CachesMatch (url request)) w).
Proof.
  intros Hget Hmaps Hhit.
  unfold on_fetch, on_fetch_as. rewrite Hget, Hmaps. simpl.
  unfold respond, respond_as, then_, caches_match. rewrite Hget. simpl.
  rewrite Hhit. reflexivity.
Qed.

(** C6, as the code has it: when a GET request misses the caches and the
    network answers with a status-200 "basic" response for a URL that starts
    with the worker's origin, the page gets that response and the listener
    starts a put of a copy into the current cache, which it neither waits
    for nor checks.  At the moment the page is answered nothing is stored
    yet.  Once the put has settled, and provided the response has no
    [Vary: *] (which makes the cache refuse the put), the copy is in the
    current cache under the request's URL, and the same request, handled
    after that, is answered from the cache with that copy: the only effect
    is the cache lookup, whatever the network would do. *)
Theorem lazy_caching_once_put_settled (origin : string) (net later : Network)
    (request : Request) (w : World) (r : Response) :
  method request = "GET" ->
  includes (url request) "maps.app.goo.gl" = false ->
  storage_match (caches w) (url request) = None ->
  net request = Fulfilled (Some r) ->
  status r = 200%Z ->
  type r = basic ->
  startsWith (url request) origin = true ->
  varies_on_all r = false ->
  let answered := on_fetch_answered origin net request w in
  let w1 := snd (on_fetch origin net request w) in
  fst answered = RespondWith (Fulfilled (Some r))
  /\ storage_match (caches (snd answered)) (url request) = None
  /\ fst (on_fetch origin net request w) = RespondWith (Fulfilled (Some r))
  /\ (exists c, find_cache (caches w1) CACHE_NAME = Some c
                /\ cache_match c (url request) = Some r)
  /\ on_fetch origin later request w1 =
       (RespondWith (Fulfilled (Some r)), emit (CachesMatch (url request)) w1)
  /\ trace (snd (on_fetch origin later request w1)) =
       trace w1 ++ [CachesMatch (url request)].
Proof.
  intros Hget Hmaps Hmiss Hnet Hs Ht Hor Hvary answered w1.
  subst answered w1.
  rewrite (on_fetch_answered_pending origin net request w r
             Hget Hmaps Hmiss Hnet Hs Ht Hor).
  rewrite (on_fetch_stores origin net request w r
             Hget Hmaps Hmiss Hnet Hs Ht Hor Hvary).
  simpl.
  assert (Hhit : storage_match (caches_after_store (caches w) request r)
                   (url request) = Some r).
  { unfold caches_after_store. apply storage_match_after_put.
    - apply has_cache_open.
    - rewrite storage_match_open. exact Hmiss. }
  split; [reflexivity |].
  split; [rewrite storage_match_open; exact Hmiss |].
  split; [reflexivity | split; [| split]].
  - unfold caches_after_store. rewrite find_cache_update.
    destruct (proj1 (has_cache_find _ _) (has_cache_open (caches w) CACHE_NAME))
      as [c Hc].
    rewrite Hc. simpl. eexists. split; [reflexivity |].
    apply cache_match_put_same.
  - apply on_fetch_hit; assumption.
  - set (w1 := mkWorld (caches_after_store (caches w) request r) _).
    rewrite (on_fetch_hit origin later request w1 r Hget Hmaps Hhit).
    reflexivity.
Qed.

(** While the put is pending, the same request misses again and is sent to
    the network again. *)
Lemma pending_put_misses (origin : string) (net : Network)
    (request : Request) (w : World) (r : Response) :
  method request = "GET" ->
  includes (url request) "maps.app.goo.gl" = false ->
  storage_match (caches w) (url request) = None ->
  net request = Fulfilled (Some r) ->
  status r = 200%Z ->
  type r = basic ->
  startsWith (url request) origin = true ->
  exists rest,
    trace (snd (on_fetch origin net request
                  (snd (on_fetch_answered origin net request w)))) =
    trace (snd (on_fetch_answered origin net request w))
    ++ CachesMatch (url request) :: NetFetch request :: rest.
Proof.
  intros Hget Hmaps Hmiss Hnet Hs Ht Hor.
  rewrite (on_fetch_answered_pending origin net request w r
             Hget Hmaps Hmiss Hnet Hs Ht Hor).
  simpl snd.
  set (wa := mkWorld (storage_open (caches w) CACHE_NAME) _).
  assert (Hmiss1 : storage_match (caches wa) (url request) = None)
    by (simpl; rewrite storage_match_open; exact Hmiss).
  destruct (varies_on_all r) eqn:Hvary.
  - rewrite (on_fetch_put_refused origin net request wa r
               Hget Hmaps Hmiss1 Hnet Hs Ht Hor Hvary).
    eexists. reflexivity.
  - rewrite (on_fetch_stores origin net request wa r
               Hget Hmaps Hmiss1 Hnet Hs Ht Hor Hvary).
    eexists. reflexivity.
Qed.

(** ** Activation *)

Lemma filter_after_filter {A} (f g : A -> bool) (l : list A) :
  filter f (filter g l) = filter (fun x => g x && f x) l.
Proof.
  induction l as [| x l IH]; simpl; [reflexivity |].
  destruct (g x); simpl; [| exact IH].
  destruct (f x); [f_equal |]; exact IH.
Qed.

Lemma cleanup_all (l : list string) (w : World) :
  (exists rs, fst (Promise_all (map cleanup_callback l) w) = Fulfilled rs)
  /\ caches (snd (Promise_all (map cleanup_callback l) w)) =
       filter (survives l) (caches w).
Proof.
  revert w. induction l as [| n l IH]; intros w; simpl.
  - split; [eexists; reflexivity |].
    symmetry. apply forallb_filter_id. apply forallb_forall. reflexivity.
  - unfold cleanup_callback at 1 3.
    destruct (n =? CACHE_NAME) eqn:En; simpl.
    + unfold Promise_resolve.
      destruct (IH w) as [[rs Hrs] Hc].
      destruct (Promise_all (map cleanup_callback l) w) as [res w2].
      simpl in *. subst res. split; [eexists; reflexivity |].
      rewrite Hc. apply filter_ext. intros b.
      unfold survives. simpl. rewrite En. reflexivity.
    + unfold then_, caches_delete, Promise_resolve.
      set (w1 := set_caches (storage_delete (caches w) n)
                   (emit (CachesDelete n) w)).
      destruct (IH w1) as [[rs Hrs] Hc].
      destruct (Promise_all (map cleanup_callback l) w1) as [res w2].
      simpl in *. subst res. split; [eexists; reflexivity |].
      rewrite Hc. unfold storage_delete. rewrite filter_after_filter.
      apply filter_ext. intros b.
      unfold survives. simpl. rewrite En. reflexivity.
Qed.

Lemma survives_own_names (s : CacheStorage) :
  filter (survives (names s)) s = filter (fun b => fst b =? CACHE_NAME) s.
Proof.
  apply filter_ext_in. intros b Hb.
  destruct (String.eqb_spec (fst b) CACHE_NAME) as [E | Hne].
  - apply forallb_forall. intros n _.
    destruct (String.eqb_spec n CACHE_NAME) as [-> | Hn]; [reflexivity |].
    simpl. rewrite E.
    destruct (String.eqb_spec CACHE_NAME n) as [E' | _];
      [symmetry in E'; contradiction | reflexivity].
  - apply not_true_is_false. intros Hall.
    unfold survives in Hall. rewrite forallb_forall in Hall.
    specialize (Hall (fst b) (in_map fst s b Hb)).
    rewrite String.eqb_refl in Hall.
    destruct (String.eqb_spec (fst b) CACHE_NAME); [contradiction | discriminate].
Qed.

(** What activation does to cache storage, from any state of it. *)
Lemma activate_caches (w : World) :
  fst (on_activate w) = Fulfilled tt
  /\ caches (snd (on_activate w)) =
       filter (fun b => fst b =? CACHE_NAME) (caches w).
Proof.
  unfold on_activate, activate_cleanup, started, then_, caches_keys,
    clients_claim.
  change (map _ (names (caches w)))
    with (map cleanup_callback (names (caches w))).
  destruct (cleanup_all (names (caches w))
              (emit ClientsClaim (emit CachesKeys w))) as [[rs Hrs] Hc].
  destruct (Promise_all (map cleanup_callback (names (caches w)))
              (emit ClientsClaim (emit CachesKeys w))) as [res w2].
  simpl in *. subst res. split; [reflexivity |].
  rewrite Hc. apply survives_own_names.
Qed.

Lemma filter_absent_name (s : CacheStorage) (name : string) :
  ~ In name (names s) -> filter (fun b => fst b =? name) s = [].
Proof.
  induction s as [| [k c] s IH]; simpl; [reflexivity |].
  intros Hn. destruct (String.eqb_spec k name) as [-> | _].
  - exfalso. apply Hn. left. reflexivity.
  - apply IH. intros H. apply Hn. right. exact H.
Qed.

Lemma names_of_current (s : CacheStorage) (name : string) :
  NoDup (names s) ->
  has_cache s name = true ->
  names (filter (fun b => fst b =? name) s) = [name].
Proof.
  induction s as [| [k c] s IH]; simpl; [discriminate |].
  intros Hnd Hhas. inversion Hnd as [| x l Hk Hnd']; subst.
  destruct (String.eqb_spec k name) as [-> | _]; simpl.
  - rewrite (filter_absent_name s name Hk). reflexivity.
  - apply IH; assumption.
Qed.

Lemma find_cache_of_current (s : CacheStorage) (name : string) :
  find_cache (filter (fun b => fst b =? name) s) name = find_cache s name.
Proof.
  induction s as [| [k c] s IH]; simpl; [reflexivity |].
  destruct (k =? name) eqn:E; simpl; rewrite ?E; [reflexivity | exact IH].
Qed.

(** C4: when activation completes, the caches left in cache storage are
    those whose name is the current one, with their contents untouched;
    given that cache names are unique and the current cache exists (install
    opened it), exactly one cache remains and it is the current one. *)
Theorem activation_keeps_only_current (w : World) :
  NoDup (names (caches w)) ->
  has_cache (caches w) CACHE_NAME = true ->
  fst (on_activate w) = Fulfilled tt
  /\ caches (snd (on_activate w)) =
       filter (fun b => fst b =? CACHE_NAME) (caches w)
  /\ names (caches (snd (on_activate w))) = [CACHE_NAME]
  /\ (forall name, In name (names (caches (snd (on_activate w)))) ->
                   name = "wedding-invitation-v1.0.0")
  /\ find_cache (caches (snd (on_activate w))) CACHE_NAME =
       find_cache (caches w) CACHE_NAME.
Proof.
  intros Hnd Hhas.
  destruct (activate_caches w) as [Hres Hc].
  assert (Hn : names (caches (snd (on_activate w))) = [CACHE_NAME]).
  { rewrite Hc. apply names_of_current; assumption. }
  split; [exact Hres | split; [exact Hc | split; [exact Hn | split]]].
  - intros name Hin. rewrite Hn in Hin.
    destruct Hin as [<- | []]. reflexivity.
  - rewrite Hc. apply find_cache_of_current.
Qed.

(** ** The manifest resolves to distinct URLs *)

Lemma ends_with_append (o p : string) : ends_with (o ++ p) p = true.
Proof.
  induction o as [| a o IH]; simpl.
  - destruct p; simpl; [reflexivity |].
    rewrite Ascii.eqb_refl, String.eqb_refl. reflexivity.
  - destruct p as [| b p]; [exact IH |].
    destruct (Ascii.eqb a b); [| exact IH].
    destruct ((o ++ String b p)%string =? p); [reflexivity | exact IH].
Qed.

Lemma append_cancel_l (o a b : string) : (o ++ a = o ++ b)%string -> a = b.
Proof.
  induction o as [| c o IH]; simpl; intros H; [exact H |].
  injection H as H. exact (IH H).
Qed.

Lemma has_duplicate_NoDup (l : list string) :
  has_duplicate l = false <-> NoDup l.
Proof.
  induction l as [| x l IH]; simpl.
  - split; [constructor | reflexivity].
  - rewrite orb_false_iff, IH. split.
    + intros [Hx Hl]. constructor; [| exact Hl].
      intros Hin.
      assert (existsb (String.eqb x) l = true) as E.
      { apply existsb_exists. exists x. split; [exact Hin | apply String.eqb_refl]. }
      congruence.
    + intros Hnd. inversion Hnd as [| y l' Hx Hl]; subst. split; [| exact Hl].
      apply not_true_is_false. intros E.
      apply existsb_exists in E. destruct E as [y [Hy Exy]].
      apply String.eqb_eq in Exy. subst y. contradiction.
Qed.

Lemma manifest_urls (origin : string) :
  map url (manifest_requests origin) =
  map (fun p => (origin ++ p)%string) local_paths ++ absolute_urls.
Proof. reflexivity. Qed.

Lemma manifest_urls_distinct (origin : string) :
  NoDup (map url (manifest_requests origin)).
Proof.
  rewrite manifest_urls. apply NoDup_app.
  - assert (Hl : NoDup local_paths)
      by (apply has_duplicate_NoDup; reflexivity).
    induction Hl as [| p l Hp Hl IH]; simpl; constructor; [| exact IH].
    intros Hin. apply in_map_iff in Hin. destruct Hin as [p' [E Hp']].
    apply append_cancel_l in E. subst p'. contradiction.
  - apply has_duplicate_NoDup. reflexivity.
  - intros a Ha Hb. apply in_map_iff in Ha. destruct Ha as [p [<- Hp]].
    assert (Hends : forallb
              (fun p => forallb (fun c => negb (ends_with c p)) absolute_urls)
              local_paths = true) by reflexivity.
    rewrite forallb_forall in Hends. specialize (Hends p Hp).
    rewrite forallb_forall in Hends. specialize (Hends _ Hb).
    rewrite ends_with_append in Hends. discriminate.
Qed.

Lemma manifest_methods (origin : string) :
  forallb (fun q => method q =? "GET") (manifest_requests origin) = true.
Proof. reflexivity. Qed.

(** ** The batch of puts *)

Lemma without_keys_nil (c : Cache) : without_keys [] c = c.
Proof.
  unfold without_keys. apply forallb_filter_id.
  apply forallb_forall. reflexivity.
Qed.

Lemma without_keys_own (entries : Cache) :
  without_keys (map fst entries) entries = [].
Proof.
  unfold without_keys.
  assert (H : forall l : Cache, incl l entries ->
            filter (fun e => negb (existsb (String.eqb (fst e)) (map fst entries))) l
            = []).
  { induction l as [| e l IH]; simpl; intros Hincl; [reflexivity |].
    assert (E : existsb (String.eqb (fst e)) (map fst entries) = true).
    { apply existsb_exists. exists (fst e). split; [| apply String.eqb_refl].
      apply in_map. apply Hincl. left. reflexivity. }
    rewrite E. simpl. apply IH. intros x Hx. apply Hincl. right. exact Hx. }
  apply H. apply incl_refl.
Qed.

Lemma without_keys_twice (keys : list string) (c : Cache) :
  without_keys keys (without_keys keys c) = without_keys keys c.
Proof.
  unfold without_keys. rewrite filter_after_filter.
  apply filter_ext. intros e. apply andb_diag.
Qed.

Lemma without_keys_app (keys : list string) (c1 c2 : Cache) :
  without_keys keys (c1 ++ c2) = without_keys keys c1 ++ without_keys keys c2.
Proof. apply filter_app. Qed.

(** A batch with distinct keys drops the old entries of those keys and
    appends the new ones, in order. *)
Lemma cache_put_all_spec (entries : Cache) (c : Cache) :
  NoDup (map fst entries) ->
  cache_put_all c entries = without_keys (map fst entries) c ++ entries.
Proof.
  revert c. induction entries as [| [u r] rest IH]; intros c Hnd; simpl.
  - rewrite without_keys_nil, app_nil_r. reflexivity.
  - inversion Hnd as [| x l Hu Hrest]; subst.
    rewrite (IH _ Hrest). unfold cache_put.
    rewrite without_keys_app, <- app_assoc. f_equal.
    + unfold without_keys, cache_remove. rewrite filter_after_filter.
      apply filter_ext. intros e. simpl. rewrite negb_orb. reflexivity.
    + unfold without_keys. simpl.
      assert (E : existsb (String.eqb u) (map fst rest) = false).
      { apply not_true_is_false. intros E. apply existsb_exists in E.
        destruct E as [y [Hy Euy]]. apply String.eqb_eq in Euy. subst y.
        contradiction. }
      rewrite E. reflexivity.
Qed.

Lemma cache_put_all_idem (entries : Cache) (c : Cache) :
  NoDup (map fst entries) ->
  cache_put_all (cache_put_all c entries) entries = cache_put_all c entries.
Proof.
  intros Hnd. rewrite !(cache_put_all_spec entries _ Hnd).
  rewrite without_keys_app, without_keys_twice, without_keys_own, app_nil_r.
  reflexivity.
Qed.

(** The last put for a key is the one that is found. *)
Lemma cache_match_put_all (entries : Cache) (c : Cache) (v : string) :
  cache_match (cache_put_all c entries) v =
  match cache_match (rev entries) v with
  | Some r => Some r
  | None => cache_match c v
  end.
Proof.
  revert c. induction entries as [| [u r] rest IH]; intros c; simpl.
  - reflexivity.
  - rewrite IH, cache_match_app. simpl.
    destruct (cache_match (rev rest) v); [reflexivity |].
    destruct (String.eqb_spec u v) as [-> | Hne].
    + apply cache_match_put_same.
    + apply cache_match_put_other. exact Hne.
Qed.

Lemma cache_match_in (c : Cache) (u : string) (r : Response) :
  NoDup (map fst c) -> In (u, r) c -> cache_match c u = Some r.
Proof.
  induction c as [| [k x] c IH]; simpl; intros Hnd Hin; [contradiction |].
  inversion Hnd as [| y l Hk Hc]; subst.
  destruct Hin as [E | Hin].
  - injection E as -> ->. rewrite String.eqb_refl. reflexivity.
  - destruct (String.eqb_spec k u) as [-> | _]; [| apply IH; assumption].
    exfalso. apply Hk. apply (in_map fst) in Hin. exact Hin.
Qed.

Lemma cache_keys_filter (f : string * Response -> bool) (c : Cache) :
  NoDup (map fst c) -> NoDup (map fst (filter f c)).
Proof.
  induction c as [| e c IH]; simpl; intros Hnd; [constructor |].
  inversion Hnd as [| y l Hk Hc]; subst.
  destruct (f e); simpl; [| apply IH; exact Hc].
  constructor; [| apply IH; exact Hc].
  intros Hin. apply Hk. apply in_map_iff in Hin.
  destruct Hin as [x [Ex Hx]]. apply filter_In in Hx.
  rewrite <- Ex. apply in_map. apply Hx.
Qed.

(** A batch with distinct keys keeps the keys of the cache distinct. *)
Lemma cache_put_all_NoDup (entries : Cache) (c : Cache) :
  NoDup (map fst entries) ->
  NoDup (map fst c) ->
  NoDup (map fst (cache_put_all c entries)).
Proof.
  intros He Hc. rewrite (cache_put_all_spec entries c He), map_app.
  apply NoDup_app; [apply cache_keys_filter; exact Hc | exact He |].
  intros k Hk Hin. apply in_map_iff in Hk. destruct Hk as [e [<- Hf]].
  unfold without_keys in Hf. apply filter_In in Hf. destruct Hf as [_ Hf].
  apply negb_true_iff in Hf.
  assert (E : existsb (String.eqb (fst e)) (map fst entries) = true).
  { apply existsb_exists. exists (fst e). split; [exact Hin | apply String.eqb_refl]. }
  congruence.
Qed.

Lemma cache_put_NoDup (c : Cache) (u : string) (r : Response) :
  NoDup (map fst c) -> NoDup (map fst (cache_put c u r)).
Proof.
  intros Hc. apply (cache_put_all_NoDup [(u, r)] c); [| exact Hc].
  constructor; [intros [] | constructor].
Qed.

(** ** What [addAll] takes from the network *)

Lemma addAll_entries_accepted (net : Network) (reqs : list Request) :
  forallb (accepted net) reqs = true ->
  exists entries,
    addAll_entries net reqs = Some entries
    /\ map fst entries = map url reqs
    /\ forall q, In q reqs ->
         exists r, addAll_accepts (net q) = Some r /\ In (url q, r) entries.
Proof.
  induction reqs as [| q reqs IH]; simpl; intros Hall.
  - exists []. repeat split. intros q [].
  - apply andb_true_iff in Hall. destruct Hall as [Hq Hrest].
    destruct (IH Hrest) as [entries [He [Hk Hin]]].
    unfold accepted in Hq.
    destruct (addAll_accepts (net q)) as [r |] eqn:Eq; [| discriminate].
    rewrite He. exists ((url q, r) :: entries). split; [reflexivity |].
    split; [simpl; f_equal; exact Hk |].
    intros q' [<- | Hq'].
    + exists r. split; [exact Eq | left; reflexivity].
    + destruct (Hin q' Hq') as [r' [Hr' Hin']].
      exists r'. split; [exact Hr' | right; exact Hin'].
Qed.

Lemma addAll_entries_refused (net : Network) (reqs : list Request) :
  forallb (accepted net) reqs = false -> addAll_entries net reqs = None.
Proof.
  induction reqs as [| q reqs IH]; simpl; intros Hall; [discriminate |].
  unfold accepted in Hall at 1.
  destruct (addAll_accepts (net q)) as [r |]; [| reflexivity].
  simpl in Hall. rewrite (IH Hall). reflexivity.
Qed.

(** An accepted response is one that the network delivered, with an ok
    status. *)
Lemma addAll_accepts_delivered (o : Settled (option Response)) (r : Response) :
  addAll_accepts o = Some r ->
  o = Fulfilled (Some r) /\ (200 <= status r <= 299)%Z.
Proof.
  unfold addAll_accepts.
  destruct o as [[r' |] | e]; try discriminate.
  destruct (negb (ResponseType_eqb (type r') error)); simpl; [| discriminate].
  destruct (Z.leb_spec 200 (status r')); simpl; [| discriminate].
  destruct (Z.leb_spec (status r') 299); simpl; [| discriminate].
  destruct (negb (status r' =? 206)%Z); simpl; [| discriminate].
  destruct (negb (varies_on_all r')); [| discriminate].
  intros [= ->]. split; [reflexivity | lia].
Qed.

(** ** Installation *)

Lemma on_install_unfold (origin : string) (net : Network) (w : World) :
  on_install origin net w =
  (Fulfilled tt,
   mkWorld
     (match addAll_entries net (manifest_requests origin) with
      | Some entries =>
          storage_update (storage_open (caches w) CACHE_NAME) CACHE_NAME
            (fun c => cache_put_all c entries)
      | None => storage_open (caches w) CACHE_NAME
      end)
     (install_trace origin w)).
Proof.
  unfold on_install, install_population, catch_, then_, caches_open,
    cache_addAll, Promise_resolve.
  cbv beta iota zeta.
  rewrite manifest_methods.
  rewrite (proj2 (has_duplicate_NoDup _) (manifest_urls_distinct origin)).
  cbv beta iota zeta. unfold negb.
  destruct (addAll_entries net (manifest_requests origin)); reflexivity.
Qed.

Lemma install_caches (origin : string) (net : Network) (w : World) :
  caches (snd (on_install origin net w)) =
  match addAll_entries net (manifest_requests origin) with
  | Some entries =>
      storage_update (storage_open (caches w) CACHE_NAME) CACHE_NAME
        (fun c => cache_put_all c entries)
  | None => storage_open (caches w) CACHE_NAME
  end.
Proof. rewrite on_install_unfold. reflexivity. Qed.

Lemma accepted_batch_keys (origin : string) (net : Network) (entries : Cache) :
  addAll_entries net (manifest_requests origin) = Some entries ->
  NoDup (map fst entries).
Proof.
  intros He.
  assert (Hall : forallb (accepted net) (manifest_requests origin) = true).
  { destruct (forallb (accepted net) (manifest_requests origin)) eqn:E;
      [reflexivity |].
    rewrite (addAll_entries_refused net _ E) in He. discriminate. }
  destruct (addAll_entries_accepted net _ Hall) as [entries' [He' [Hk _]]].
  rewrite He in He'. injection He' as <-.
  rewrite Hk. apply manifest_urls_distinct.
Qed.

Lemma storage_open_present (s : CacheStorage) (name : string) :
  has_cache s name = true -> storage_open s name = s.
Proof. intros H. unfold storage_open. rewrite H. reflexivity. Qed.

Lemma has_cache_names (s : CacheStorage) (name : string) :
  has_cache s name = true <-> In name (names s).
Proof.
  unfold has_cache, names. rewrite existsb_exists, in_map_iff. split.
  - intros [b [Hb E]]. apply String.eqb_eq in E. exists b. split; assumption.
  - intros [b [E Hb]]. exists b. split; [exact Hb | apply String.eqb_eq; exact E].
Qed.

(** The current cache after an install whose batch was accepted holds, for
    every manifest request, the response that the network gave. *)
Lemma install_stores_batch (origin : string) (net : Network) (w : World) :
  forallb (accepted net) (manifest_requests origin) = true ->
  forall q, In q (manifest_requests origin) ->
    exists r c,
      net q = Fulfilled (Some r)
      /\ find_cache (caches (snd (on_install origin net w))) CACHE_NAME = Some c
      /\ cache_match c (url q) = Some r.
Proof.
  intros Hall q Hq.
  destruct (addAll_entries_accepted net _ Hall) as [entries [He [Hk Hin]]].
  destruct (Hin q Hq) as [r [Hr Hqr]].
  rewrite install_caches, He.
  destruct (proj1 (has_cache_find _ _) (has_cache_open (caches w) CACHE_NAME))
    as [c0 Hc0].
  exists r, (cache_put_all c0 entries).
  split; [apply addAll_accepts_delivered; exact Hr | split].
  - rewrite find_cache_update, Hc0. reflexivity.
  - rewrite cache_match_put_all.
    rewrite (cache_match_in (rev entries) (url q) r); [reflexivity | |].
    + rewrite map_rev, Hk. apply NoDup_rev. apply manifest_urls_distinct.
    + apply in_rev. rewrite rev_involutive. exact Hqr.
Qed.

(** C1, as the code has it: the install listener always reports success,
    because a rejected population is caught; the population itself is one
    batch.  When the network's answer to every manifest request is
    acceptable, every manifest URL is found in the current cache with the
    response that was given; when the answer to any one of them is not,
    nothing is stored: cache storage is what opening the current cache left. *)
Theorem install_succeeds_population_is_one_batch (origin : string)
    (net : Network) (w : World) :
  fst (on_install origin net w) = Fulfilled tt
  /\ (if forallb (accepted net) (manifest_requests origin)
      then forall q, In q (manifest_requests origin) ->
             exists r c,
               net q = Fulfilled (Some r)
               /\ find_cache (caches (snd (on_install origin net w))) CACHE_NAME
                  = Some c
               /\ cache_match c (url q) = Some r
      else caches (snd (on_install origin net w)) =
             storage_open (caches w) CACHE_NAME).
Proof.
  split; [rewrite on_install_unfold; reflexivity |].
  destruct (forallb (accepted net) (manifest_requests origin)) eqn:Hall.
  - apply install_stores_batch. exact Hall.
  - rewrite install_caches.
    rewrite (addAll_entries_refused net _ Hall). reflexivity.
Qed.

(** ** Well-formed cache storage *)

Lemma storage_wf_open (s : CacheStorage) (name : string) :
  storage_wf s -> storage_wf (storage_open s name).
Proof.
  intros [Hn Hc]. unfold storage_open.
  destruct (has_cache s name) eqn:E; [split; assumption |].
  split.
  - unfold names. rewrite map_app. apply NoDup_app; [exact Hn | |].
    + constructor; [intros [] | constructor].
    + intros a Ha [<- | []].
      apply has_cache_names in Ha. simpl in Ha. congruence.
  - apply Forall_app. split; [exact Hc |].
    constructor; [constructor | constructor].
Qed.

Lemma storage_wf_update (s : CacheStorage) (name : string) (f : Cache -> Cache) :
  (forall c, NoDup (map fst c) -> NoDup (map fst (f c))) ->
  storage_wf s -> storage_wf (storage_update s name f).
Proof.
  intros Hf [Hn Hc]. split; [rewrite names_update; exact Hn |].
  clear Hn. induction Hc as [| [k c] s Hk Hs IH]; simpl; [constructor |].
  destruct (k =? name); constructor.
  - simpl. apply Hf. exact Hk.
  - exact Hs.
  - exact Hk.
  - exact IH.
Qed.

Lemma storage_wf_install (origin : string) (net : Network) (w : World) :
  storage_wf (caches w) -> storage_wf (caches (snd (on_install origin net w))).
Proof.
  intros Hwf. rewrite install_caches.
  destruct (addAll_entries net (manifest_requests origin)) as [entries |] eqn:He.
  - apply storage_wf_update; [| apply storage_wf_open; exact Hwf].
    intros c Hc. apply cache_put_all_NoDup; [| exact Hc].
    apply (accepted_batch_keys origin net). exact He.
  - apply storage_wf_open. exact Hwf.
Qed.

Lemma has_cache_install (origin : string) (net : Network) (w : World) :
  has_cache (caches (snd (on_install origin net w))) CACHE_NAME = true.
Proof.
  rewrite install_caches.
  destruct (addAll_entries net (manifest_requests origin));
    [rewrite has_cache_update |]; apply has_cache_open.
Qed.

Lemma names_install (origin : string) (net : Network) (w : World) :
  names (caches (snd (on_install origin net w))) =
  names (storage_open (caches w) CACHE_NAME).
Proof.
  rewrite install_caches.
  destruct (addAll_entries net (manifest_requests origin));
    [apply names_update | reflexivity].
Qed.

(** Installing again with the same answers from the network changes
    nothing in cache storage. *)
Lemma install_twice_same (origin : string) (net : Network) (w : World) :
  caches (snd (on_install origin net (snd (on_install origin net w)))) =
  caches (snd (on_install origin net w)).
Proof.
  rewrite (install_caches origin net (snd (on_install origin net w))).
  rewrite (install_caches origin net w).
  destruct (addAll_entries net (manifest_requests origin)) as [entries |] eqn:He.
  - rewrite (storage_open_present (storage_update _ _ _)).
    2:{ rewrite has_cache_update. apply has_cache_open. }
    rewrite storage_update_update. apply storage_update_ext. intros c.
    apply cache_put_all_idem.
    apply (accepted_batch_keys origin net). exact He.
  - apply storage_open_idem.
Qed.

(** C8: running the install listener again for the same cache name, on a
    well-formed cache storage, reports success both times, adds no second
    cache of that name and leaves at most one entry per key in every cache;
    a batch accepted by the second run overwrites the entries of the first,
    and with the same answers from the network the second run changes
    nothing. *)
Theorem install_again_is_harmless (origin : string) (first second : Network)
    (w : World) :
  storage_wf (caches w) ->
  let w1 := snd (on_install origin first w) in
  let w2 := snd (on_install origin second w1) in
  fst (on_install origin first w) = Fulfilled tt
  /\ fst (on_install origin second w1) = Fulfilled tt
  /\ storage_wf (caches w2)
  /\ names (caches w2) = names (caches w1)
  /\ (forallb (accepted second) (manifest_requests origin) = true ->
      forall q, In q (manifest_requests origin) ->
        exists r c,
          second q = Fulfilled (Some r)
          /\ find_cache (caches w2) CACHE_NAME = Some c
          /\ cache_match c (url q) = Some r)
  /\ caches (snd (on_install origin first w1)) = caches w1.
Proof.
  intros Hwf w1 w2.
  split; [rewrite on_install_unfold; reflexivity |].
  split; [rewrite on_install_unfold; reflexivity |].
  split; [apply storage_wf_install, storage_wf_install; exact Hwf |].
  split.
  - unfold w2. rewrite names_install.
    rewrite storage_open_present; [reflexivity | apply has_cache_install].
  - split; [apply install_stores_batch | apply install_twice_same].
Qed.

(** ** Where the maps link does reach a cache *)

(** The install listener asks the current cache to add the maps link: it is
    the last request of the manifest. *)
Lemma install_requests_maps_link (origin : string) (net : Network) (w : World) :
  includes maps_link "maps.app.goo.gl" = true
  /\ In (mkRequest maps_link "GET" mode_no_cors []) (manifest_requests origin)
  /\ In (NetFetch (mkRequest maps_link "GET" mode_no_cors []))
        (trace (snd (on_install origin net w))).
Proof.
  split; [reflexivity |].
  assert (Hin : In (mkRequest maps_link "GET" mode_no_cors [])
                  (manifest_requests origin)).
  { unfold manifest_requests. apply in_map_iff.
    exists maps_link. split; [reflexivity |].
    unfold urlsToCache, maps_link. simpl. tauto. }
  split; [exact Hin |].
  rewrite on_install_unfold. unfold install_trace, trace at 1, snd.
  apply in_or_app. right. apply in_cons.
  apply (in_map NetFetch). exact Hin.
Qed.

(** And when the batch is accepted, the maps link is stored. *)
Lemma install_stores_maps_link (origin : string) (net : Network) (w : World) :
  forallb (accepted net) (manifest_requests origin) = true ->
  exists r c,
    find_cache (caches (snd (on_install origin net w))) CACHE_NAME = Some c
    /\ cache_match c maps_link = Some r.
Proof.
  intros Hall.
  destruct (install_requests_maps_link origin net w) as [_ [Hin _]].
  destruct (install_stores_batch origin net w Hall _ Hin) as [r [c [_ [Hc Hm]]]].
  exists r, c. split; assumption.
Qed.

(** ** Concrete runs *)

(** C1 refuted as stated: the image host is down, every other manifest
    request is answered with a 200; the install reports success, yet
    /index.html, whose own fetch succeeded, is not stored: the current cache
    is empty. *)
Lemma install_one_failure_stores_nothing :
  In index_request (manifest_requests site)
  /\ image_host_down index_request =
       Fulfilled (Some (page "https://wedding.example/index.html"))
  /\ fst (on_install site image_host_down nothing_cached) = Fulfilled tt
  /\ caches (snd (on_install site image_host_down nothing_cached)) =
       [(CACHE_NAME, [])]
  /\ storage_match (caches (snd (on_install site image_host_down nothing_cached)))
       "https://wedding.example/index.html" = None.
Proof.
  split; [simpl; tauto |].
  repeat split; vm_compute; reflexivity.
Qed.

(** C2 refuted as stated: outside interception the maps link is written to
    the current cache; here by a CACHE_URLS message. *)
Lemma maps_link_stored_by_message :
  includes maps_link "maps.app.goo.gl" = true
  /\ fst (on_message site (always map_page) cache_maps_link nothing_cached) =
       Fulfilled tt
  /\ caches (snd (on_message site (always map_page) cache_maps_link
                    nothing_cached)) =
       [(CACHE_NAME, [(maps_link, map_page)])].
Proof. repeat split; vm_compute; reflexivity. Qed.

(** When every manifest request is answered with a 200, the manifest is in
    the current cache after install. *)
Example install_all_answered :
  map fst (match find_cache
                   (caches (snd (on_install site (always shell) nothing_cached)))
                   CACHE_NAME with
           | Some c => c
           | None => []
           end) =
  map url (manifest_requests site).
Proof. vm_compute. reflexivity. Qed.

(** With opaque answers from the two other origins the batch is refused:
    install succeeds and the current cache stays empty. *)
Example install_opaque_answers :
  on_install site other_origins_opaque nothing_cached =
    (Fulfilled tt,
     mkWorld [(CACHE_NAME, [])] (install_trace site nothing_cached)).
Proof. vm_compute. reflexivity. Qed.

(** Install, then activate, on a storage with stale caches leaves the
    current cache alone. *)
Example upgrade_leaves_current_only :
  names (caches (snd (on_activate
                        (snd (on_install site image_host_down
                                (mkWorld [("app-v1.0.0", [("/", shell)])] []))))))
  = [CACHE_NAME].
Proof. vm_compute. reflexivity. Qed.

(** *** The fetch listener on concrete requests *)

(** A POST is not intercepted. *)
Lemma non_get_not_intercepted_witness :
  method rsvp_post <> "GET"
  /\ on_fetch site offline rsvp_post nothing_cached =
       (NotIntercepted, nothing_cached).
Proof.
  assert (H : method rsvp_post <> "GET") by discriminate.
  split; [exact H |].
  exact (non_get_not_intercepted site offline rsvp_post nothing_cached H).
Defined.

(** The maps link is not served from the cache even when a cache holds it. *)
Lemma maps_link_not_intercepted_witness :
  includes (url (get maps_link [])) "maps.app.goo.gl" = true
  /\ storage_match (caches maps_cached) maps_link = Some map_page
  /\ on_fetch site offline (get maps_link []) maps_cached =
       (NotIntercepted, maps_cached).
Proof.
  split; [reflexivity | split; [reflexivity |]].
  exact (maps_link_not_intercepted site offline (get maps_link []) maps_cached
           eq_refl).
Defined.

(** A 404 is handed to the page and not stored. *)
Lemma unusable_response_returned_uncached_witness :
  method missing_photo = "GET"
  /\ includes (url missing_photo) "maps.app.goo.gl" = false
  /\ storage_match (caches nothing_cached) (url missing_photo) = None
  /\ always not_found missing_photo = Fulfilled (Some not_found)
  /\ status not_found <> 200%Z
  /\ on_fetch site (always not_found) missing_photo nothing_cached =
       (RespondWith (Fulfilled (Some not_found)),
        after_miss missing_photo nothing_cached)
  /\ caches (after_miss missing_photo nothing_cached) = [].
Proof.
  assert (Hs : status not_found <> 200%Z) by discriminate.
  repeat (split; [reflexivity |]).
  split; [exact Hs |].
  destruct (unusable_response_returned_uncached site (always not_found)
              missing_photo nothing_cached (Some not_found)
              eq_refl eq_refl eq_refl eq_refl
              (or_intror (ex_intro _ not_found (conj eq_refl (or_introl Hs)))))
    as [Hrun [Hcaches _]].
  split; [exact Hrun | exact Hcaches].
Defined.

(** Offline, a navigation to /about.html gets the cached /index.html. *)
Lemma network_failure_fallback_witness :
  method about_page = "GET"
  /\ includes (url about_page) "maps.app.goo.gl" = false
  /\ storage_match (caches shell_cached) (url about_page) = None
  /\ offline about_page = Rejected (NetworkError "Failed to fetch")
  /\ headers_get (headers about_page) "accept" =
       Some "text/html,application/xhtml+xml,*/*;q=0.8"
  /\ includes "text/html,application/xhtml+xml,*/*;q=0.8" "text/html" = true
  /\ fst (on_fetch site offline about_page shell_cached) =
       RespondWith (Fulfilled (Some shell)).
Proof.
  repeat (split; [reflexivity |]).
  destruct (network_failure_fallback site offline about_page shell_cached
              (NetworkError "Failed to fetch") eq_refl eq_refl eq_refl eq_refl)
    as [Hhtml _].
  rewrite (Hhtml _ eq_refl eq_refl). reflexivity.
Defined.

(** Offline, an image that is not cached fails: the rejection is passed on. *)
Example photo_offline_fails :
  on_fetch site offline missing_photo shell_cached =
    (RespondWith (Rejected (NetworkError "Failed to fetch")),
     after_miss missing_photo shell_cached).
Proof. reflexivity. Qed.

(** Offline, a request without an Accept header ends in the type error, not
    in the network's rejection. *)
Lemma missing_accept_header_faults_witness :
  method bare_request = "GET"
  /\ includes (url bare_request) "maps.app.goo.gl" = false
  /\ storage_match (caches shell_cached) (url bare_request) = None
  /\ offline bare_request = Rejected (NetworkError "Failed to fetch")
  /\ headers_get (headers bare_request) "accept" = None
  /\ on_fetch site offline bare_request shell_cached =
       (RespondWith
          (Rejected
             (TypeError "Cannot read properties of null (reading 'includes')")),
        after_miss bare_request shell_cached).
Proof.
  repeat (split; [reflexivity |]).
  exact (proj1 (missing_accept_header_faults site offline bare_request
                  shell_cached (NetworkError "Failed to fetch")
                  eq_refl eq_refl eq_refl eq_refl eq_refl)).
Defined.

(** A stylesheet fetched once is served from the cache afterwards, also
    when the network is gone. *)
Lemma lazy_caching_once_put_settled_witness :
  method styles_request = "GET"
  /\ includes (url styles_request) "maps.app.goo.gl" = false
  /\ storage_match (caches nothing_cached) (url styles_request) = None
  /\ always styles styles_request = Fulfilled (Some styles)
  /\ status styles = 200%Z
  /\ type styles = basic
  /\ startsWith (url styles_request) site = true
  /\ varies_on_all styles = false
  /\ on_fetch site offline styles_request
       (snd (on_fetch site (always styles) styles_request nothing_cached)) =
     (RespondWith (Fulfilled (Some styles)),
      emit (CachesMatch (url styles_request))
        (snd (on_fetch site (always styles) styles_request nothing_cached))).
Proof.
  repeat (split; [reflexivity |]).
  destruct (lazy_caching_once_put_settled site (always styles) offline
              styles_request nothing_cached styles
              eq_refl eq_refl eq_refl eq_refl eq_refl eq_refl eq_refl eq_refl)
    as [_ [_ [_ [_ [Hagain _]]]]].
  exact Hagain.
Defined.

(** C6 refuted as stated: the stylesheet is a status-200 "basic" response
    for a URL of the origin, served with [Vary: *].  The page gets it; the
    put is refused, nothing is stored, and the same request, handled next,
    misses and is sent to the network again. *)
Lemma lazy_caching_refused_put :
  method styles_request = "GET"
  /\ includes (url styles_request) "maps.app.goo.gl" = false
  /\ storage_match (caches nothing_cached) (url styles_request) = None
  /\ always styles_vary_all styles_request = Fulfilled (Some styles_vary_all)
  /\ status styles_vary_all = 200%Z
  /\ type styles_vary_all = basic
  /\ startsWith (url styles_request) site = true
  /\ on_fetch site (always styles_vary_all) styles_request nothing_cached =
       (RespondWith (Fulfilled (Some styles_vary_all)),
        mkWorld [(CACHE_NAME, [])]
          [CachesMatch (url styles_request); NetFetch styles_request;
           CachesOpen CACHE_NAME])
  /\ trace (snd (on_fetch site (always styles_vary_all) styles_request
                   (snd (on_fetch site (always styles_vary_all) styles_request
                           nothing_cached)))) =
       [CachesMatch (url styles_request); NetFetch styles_request;
        CachesOpen CACHE_NAME;
        CachesMatch (url styles_request); NetFetch styles_request;
        CachesOpen CACHE_NAME].
Proof. repeat split; vm_compute; reflexivity. Qed.

(** *** Activation and installation on concrete storage *)

Lemma after_upgrade_names : NoDup (names (caches after_upgrade)).
Proof.
  apply has_duplicate_NoDup. reflexivity.
Defined.

Lemma activation_keeps_only_current_witness :
  NoDup (names (caches after_upgrade))
  /\ has_cache (caches after_upgrade) CACHE_NAME = true
  /\ caches (snd (on_activate after_upgrade)) =
       [(CACHE_NAME, [("https://wedding.example/index.html", shell)])].
Proof.
  split; [exact after_upgrade_names | split; [reflexivity |]].
  destruct (activation_keeps_only_current after_upgrade
              after_upgrade_names eq_refl) as [_ [Hcaches _]].
  rewrite Hcaches. reflexivity.
Defined.

Lemma after_upgrade_wf : storage_wf (caches after_upgrade).
Proof.
  split; [exact after_upgrade_names |].
  repeat constructor; simpl; intros H; exact H.
Defined.

Lemma install_again_is_harmless_witness :
  storage_wf (caches after_upgrade)
  /\ fst (on_install site image_host_down
            (snd (on_install site (always shell) after_upgrade))) = Fulfilled tt
  /\ storage_wf
       (caches (snd (on_install site image_host_down
                       (snd (on_install site (always shell) after_upgrade)))))
  /\ caches (snd (on_install site (always shell)
                    (snd (on_install site (always shell) after_upgrade)))) =
     caches (snd (on_install site (always shell) after_upgrade)).
Proof.
  split; [exact after_upgrade_wf |].
  destruct (install_again_is_harmless site (always shell) image_host_down
              after_upgrade after_upgrade_wf)
    as [_ [Hok [Hwf _]]].
  destruct (install_again_is_harmless site (always shell) (always shell)
              after_upgrade after_upgrade_wf)
    as [_ [_ [_ [_ [_ Hsame]]]]].
  split; [exact Hok | split; [exact Hwf | exact Hsame]].
Defined.

(** *** The message listener on a concrete message *)

Lemma get_version_replies_once_witness :
  has_type version_query "GET_VERSION" = true
  /\ ports version_query = [4]
  /\ on_message site offline version_query nothing_cached =
       (Fulfilled tt,
        mkWorld [] [PostMessage 4 "wedding-invitation-v1.0.0"]).
Proof.
  split; [reflexivity | split; [reflexivity |]].
  exact (proj1 (get_version_replies_once site offline version_query 4 []
                  nothing_cached eq_refl eq_refl)).
Defined.

(** ** More about cache storage *)

Lemma storage_match_held (s : CacheStorage) (name : string) (c : Cache)
    (u : string) (held : Response) :
  In (name, c) s -> cache_match c u = Some held ->
  exists r, storage_match s u = Some r.
Proof.
  induction s as [| [n c'] s IH]; simpl; intros Hin Hc; [contradiction |].
  destruct (cache_match c' u) as [r |] eqn:E; [exists r; reflexivity |].
  destruct Hin as [Heq | Hin]; [| apply IH; assumption].
  injection Heq as _ ->. congruence.
Qed.

Lemma storage_match_update_other (s : CacheStorage) (name v : string)
    (f : Cache -> Cache) :
  (forall c, cache_match (f c) v = cache_match c v) ->
  storage_match (storage_update s name f) v = storage_match s v.
Proof.
  intros Hf. induction s as [| [n c] s IH]; simpl; [reflexivity |].
  destruct (n =? name); simpl; [rewrite Hf; reflexivity |].
  rewrite IH. reflexivity.
Qed.

Lemma find_cache_update_other (s : CacheStorage) (name other : string)
    (f : Cache -> Cache) :
  other <> name ->
  find_cache (storage_update s name f) other = find_cache s other.
Proof.
  intros Hne. induction s as [| [n c] s IH]; simpl; [reflexivity |].
  destruct (String.eqb_spec n name) as [-> | Hn]; simpl.
  - destruct (String.eqb_spec name other) as [E | _]; [| reflexivity].
    symmetry in E. contradiction.
  - destruct (n =? other); [reflexivity | exact IH].
Qed.

Lemma find_cache_app (s1 s2 : CacheStorage) (name : string) :
  find_cache (s1 ++ s2) name =
  match find_cache s1 name with
  | Some c => Some c
  | None => find_cache s2 name
  end.
Proof.
  induction s1 as [| [n c] s1 IH]; simpl; [reflexivity |].
  destruct (n =? name); [reflexivity | exact IH].
Qed.

Lemma find_cache_open_other (s : CacheStorage) (name other : string) :
  other <> name ->
  find_cache (storage_open s name) other = find_cache s other.
Proof.
  intros Hne. unfold storage_open.
  destruct (has_cache s name); [reflexivity |].
  rewrite find_cache_app. simpl.
  destruct (String.eqb_spec name other) as [E | _];
    [symmetry in E; contradiction |].
  destruct (find_cache s other); reflexivity.
Qed.

Lemma names_open_incl (s : CacheStorage) (name : string) :
  incl (names s) (names (storage_open s name)).
Proof.
  unfold storage_open. destruct (has_cache s name); [apply incl_refl |].
  unfold names. rewrite map_app. apply incl_appl, incl_refl.
Qed.

Lemma stored_entries_open (s : CacheStorage) (name : string) :
  stored_entries (storage_open s name) = stored_entries s.
Proof.
  unfold storage_open, stored_entries.
  destruct (has_cache s name); [reflexivity |].
  rewrite flat_map_app. simpl. rewrite app_nil_r. reflexivity.
Qed.

Lemma stored_entries_update (s : CacheStorage) (name : string)
    (f : Cache -> Cache) (e : string * Response) (P : Prop) :
  (forall c, In e (f c) -> In e c \/ P) ->
  In e (stored_entries (storage_update s name f)) ->
  In e (stored_entries s) \/ P.
Proof.
  intros Hf. unfold stored_entries.
  induction s as [| [n c] s IH]; simpl; [tauto |].
  destruct (n =? name); simpl; rewrite !in_app_iff.
  - intros [H | H]; [| tauto]. destruct (Hf c H); tauto.
  - intros [H | H]; [tauto |]. destruct (IH H); tauto.
Qed.

Lemma stored_entries_delete (s : CacheStorage) (f : string * Cache -> bool)
    (e : string * Response) :
  In e (stored_entries (filter f s)) -> In e (stored_entries s).
Proof.
  unfold stored_entries. rewrite !in_flat_map.
  intros [b [Hb He]]. apply filter_In in Hb. exists b. tauto.
Qed.

Lemma In_cache_put (c : Cache) (u : string) (r : Response)
    (e : string * Response) :
  In e (cache_put c u r) -> In e c \/ e = (u, r).
Proof.
  unfold cache_put, cache_remove. rewrite in_app_iff, filter_In. simpl.
  intros [[H _] | [H | []]]; [left; exact H | right; symmetry; exact H].
Qed.

Lemma In_cache_put_all (entries c : Cache) (e : string * Response) :
  In e (cache_put_all c entries) -> In e c \/ In e entries.
Proof.
  revert c. induction entries as [| [u r] rest IH]; simpl; intros c H;
    [left; exact H |].
  destruct (IH _ H) as [Hc | Hrest]; [| tauto].
  destruct (In_cache_put c u r e Hc) as [Hin | ->]; tauto.
Qed.

Lemma cache_match_absent (c : Cache) (v : string) :
  ~ In v (map fst c) -> cache_match c v = None.
Proof.
  induction c as [| [k r] c IH]; simpl; intros Hn; [reflexivity |].
  destruct (String.eqb_spec k v) as [-> | _]; [tauto |].
  apply IH. tauto.
Qed.

Lemma addAll_entries_keys (net : Network) (reqs : list Request) (entries : Cache) :
  addAll_entries net reqs = Some entries -> map fst entries = map url reqs.
Proof.
  revert entries. induction reqs as [| q reqs IH]; simpl; intros entries H.
  - injection H as <-. reflexivity.
  - destruct (addAll_accepts (net q)) as [r |]; [| discriminate].
    destruct (addAll_entries net reqs) as [l |]; [| discriminate].
    injection H as <-. simpl. f_equal. apply IH. reflexivity.
Qed.

(** The entries of an accepted batch are what the network delivered, with
    an ok status. *)
Lemma addAll_entries_delivered (net : Network) (reqs : list Request)
    (entries : Cache) (e : string * Response) :
  addAll_entries net reqs = Some entries -> In e entries ->
  exists q, In q reqs /\ fst e = url q
            /\ net q = Fulfilled (Some (snd e)) /\ ok_status (snd e).
Proof.
  revert entries. induction reqs as [| q reqs IH]; simpl; intros entries H Hin.
  - injection H as <-. contradiction.
  - destruct (addAll_accepts (net q)) as [r |] eqn:Eq; [| discriminate].
    destruct (addAll_entries net reqs) as [l |]; [| discriminate].
    injection H as <-. destruct Hin as [<- | Hin].
    + exists q. destruct (addAll_accepts_delivered _ _ Eq) as [Hn Hs].
      simpl. repeat split; [left; reflexivity | exact Hn | apply Hs | apply Hs].
    + destruct (IH l eq_refl Hin) as [q' [Hq' Hrest]]. exists q'.
      split; [right; exact Hq' | exact Hrest].
Qed.

(** ** The fetch listener: every path *)

(** Either the caches are as before, or the current cache was opened and
    the put that was started was refused, or the listener went all the way
    to storing the network's response. *)
Lemma on_fetch_caches (origin : string) (net : Network) (request : Request)
    (w : World) :
  caches (snd (on_fetch origin net request w)) = caches w
  \/ caches (snd (on_fetch origin net request w)) =
       storage_open (caches w) CACHE_NAME
  \/ (method request = "GET"
      /\ includes (url request) "maps.app.goo.gl" = false
      /\ storage_match (caches w) (url request) = None
      /\ startsWith (url request) origin = true
      /\ exists r, net request = Fulfilled (Some r)
                   /\ status r = 200%Z /\ type r = basic
                   /\ caches (snd (on_fetch origin net request w)) =
                        caches_after_store (caches w) request r).
Proof.
  destruct (String.eqb_spec (method request) "GET") as [Hget | Hm].
  2:{ left. unfold on_fetch, on_fetch_as.
      destruct (String.eqb_spec (method request) "GET");
        [contradiction | reflexivity]. }
  destruct (includes (url request) "maps.app.goo.gl") eqn:Hmaps.
  { left. unfold on_fetch, on_fetch_as. rewrite Hmaps.
    destruct (negb (method request =? "GET")); reflexivity. }
  destruct (storage_match (caches w) (url request)) as [hit |] eqn:Hmatch.
  { left. rewrite (on_fetch_hit origin net request w hit Hget Hmaps Hmatch).
    reflexivity. }
  destruct (net request) as [[r |] | failure] eqn:Hnet.
  - destruct (negb (status r =? 200)%Z
              || negb (ResponseType_eqb (type r) basic)) eqn:Hguard.
    + left. rewrite (on_fetch_responds origin net request w Hget Hmaps).
      rewrite (respond_miss_unfold origin net request w Hget Hmatch), Hnet, Hguard.
      reflexivity.
    + apply orb_false_iff in Hguard. destruct Hguard as [Hs Ht].
      apply negb_false_iff in Hs, Ht. apply Z.eqb_eq in Hs.
      assert (Ht' : type r = basic)
        by (destruct (type r); try discriminate; reflexivity).
      destruct (startsWith (url request) origin) eqn:Hor.
      * destruct (varies_on_all r) eqn:Hvary.
        -- right. left.
           rewrite (on_fetch_put_refused origin net request w r
                      Hget Hmaps Hmatch Hnet Hs Ht' Hor Hvary).
           reflexivity.
        -- right. right. repeat (split; [assumption || reflexivity |]).
           exists r.
           rewrite (on_fetch_stores origin net request w r
                      Hget Hmaps Hmatch Hnet Hs Ht' Hor Hvary).
           repeat split; assumption.
      * left. rewrite (on_fetch_responds origin net request w Hget Hmaps).
        rewrite (respond_miss_unfold origin net request w Hget Hmatch), Hnet.
        rewrite Hs, Ht', Hor. reflexivity.
  - left. rewrite (on_fetch_responds origin net request w Hget Hmaps).
    rewrite (respond_miss_unfold origin net request w Hget Hmatch), Hnet.
    reflexivity.
  - left. rewrite (on_fetch_responds origin net request w Hget Hmaps).
    rewrite (respond_miss_unfold origin net request w Hget Hmatch), Hnet.
    destruct (headers_get (headers request) "accept") as [a |]; [| reflexivity].
    destruct (includes a "text/html"); reflexivity.
Qed.

(** X1: a GET request for a URL that some cache holds, whatever the name of
    that cache, is answered from cache storage; the network is not asked and
    nothing is stored, whatever the network would have answered. *)
Theorem cached_response_served_without_network (origin : string)
    (net : Network) (request : Request) (w : World)
    (name : string) (c : Cache) (held : Response) :
  method request = "GET" ->
  includes (url request) "maps.app.goo.gl" = false ->
  In (name, c) (caches w) ->
  cache_match c (url request) = Some held ->
  exists r,
    storage_match (caches w) (url request) = Some r
    /\ on_fetch origin net request w =
         (RespondWith (Fulfilled (Some r)), emit (CachesMatch (url request)) w)
    /\ caches (snd (on_fetch origin net request w)) = caches w
    /\ trace (snd (on_fetch origin net request w)) =
         trace w ++ [CachesMatch (url request)].
Proof.
  intros Hget Hmaps Hin Hheld.
  destruct (storage_match_held _ _ _ _ _ Hin Hheld) as [r Hr].
  exists r. split; [exact Hr |].
  rewrite (on_fetch_hit origin net request w r Hget Hmaps Hr).
  repeat split.
Qed.

(** X2: on a miss, what the page receives is what the network answered,
    whether or not the listener stores a copy. *)
Theorem miss_hands_over_network_response (origin : string) (net : Network)
    (request : Request) (w : World) (response : option Response) :
  method request = "GET" ->
  includes (url request) "maps.app.goo.gl" = false ->
  storage_match (caches w) (url request) = None ->
  net request = Fulfilled response ->
  fst (on_fetch origin net request w) = RespondWith (Fulfilled response).
Proof.
  intros Hget Hmaps Hmiss Hnet.
  rewrite (on_fetch_responds origin net request w Hget Hmaps).
  rewrite (respond_miss_unfold origin net request w Hget Hmiss), Hnet.
  destruct response as [r |]; [| reflexivity].
  destruct (negb (status r =? 200)%Z || negb (ResponseType_eqb (type r) basic));
    [reflexivity |].
  destruct (startsWith (url request) origin); reflexivity.
Qed.

(** X3: a response for a URL that does not start with the worker's origin
    is never stored by the fetch listener, not even a 200 of type "basic". *)
Theorem foreign_url_not_stored (origin : string) (net : Network)
    (request : Request) (w : World) (r : Response) :
  method request = "GET" ->
  includes (url request) "maps.app.goo.gl" = false ->
  storage_match (caches w) (url request) = None ->
  net request = Fulfilled (Some r) ->
  startsWith (url request) origin = false ->
  on_fetch origin net request w =
    (RespondWith (Fulfilled (Some r)), after_miss request w)
  /\ caches (snd (on_fetch origin net request w)) = caches w.
Proof.
  intros Hget Hmaps Hmiss Hnet Hor.
  assert (E : on_fetch origin net request w =
              (RespondWith (Fulfilled (Some r)), after_miss request w)).
  { rewrite (on_fetch_responds origin net request w Hget Hmaps).
    rewrite (respond_miss_unfold origin net request w Hget Hmiss), Hnet, Hor.
    destruct (negb (status r =? 200)%Z || negb (ResponseType_eqb (type r) basic));
      reflexivity. }
  rewrite E. split; reflexivity.
Qed.

(** X4: handling a fetch changes the answer of cache storage for no URL
    other than the request's own, touches no cache other than the current
    one and removes no cache. *)
Theorem fetch_leaves_other_urls_alone (origin : string) (net : Network)
    (request : Request) (w : World) (v other : string) :
  v <> url request ->
  other <> CACHE_NAME ->
  storage_match (caches (snd (on_fetch origin net request w))) v =
    storage_match (caches w) v
  /\ find_cache (caches (snd (on_fetch origin net request w))) other =
       find_cache (caches w) other
  /\ incl (names (caches w))
          (names (caches (snd (on_fetch origin net request w)))).
Proof.
  intros Hv Hother.
  destruct (on_fetch_caches origin net request w)
    as [-> | [-> | [_ [_ [_ [_ [r [_ [_ [_ ->]]]]]]]]]].
  - repeat split. apply incl_refl.
  - split; [apply storage_match_open | split].
    + apply find_cache_open_other. exact Hother.
    + apply names_open_incl.
  - unfold caches_after_store. split; [| split].
    + rewrite storage_match_update_other, storage_match_open; [reflexivity |].
      intros c. apply cache_match_put_other. congruence.
    + rewrite find_cache_update_other, find_cache_open_other;
        [reflexivity | exact Hother | exact Hother].
    + rewrite names_update. apply names_open_incl.
Qed.

(** X5: whatever is in cache storage after a fetch was either there before
    or was stored by this fetch, and then it is the request's URL with the
    network's response, for a GET request whose URL starts with the origin
    and does not contain the host of the maps link, and the response has
    status 200 and type "basic". *)
Theorem fetch_stores_only_what_it_fetched (origin : string) (net : Network)
    (request : Request) (w : World) (e : string * Response) :
  In e (stored_entries (caches (snd (on_fetch origin net request w)))) ->
  In e (stored_entries (caches w))
  \/ (fst e = url request
      /\ method request = "GET"
      /\ startsWith (url request) origin = true
      /\ includes (url request) "maps.app.goo.gl" = false
      /\ net request = Fulfilled (Some (snd e))
      /\ status (snd e) = 200%Z
      /\ type (snd e) = basic).
Proof.
  destruct (on_fetch_caches origin net request w)
    as [-> | [-> | [Hget [Hmaps [_ [Hor [r [Hnet [Hs [Ht ->]]]]]]]]]].
  - intros H. left. exact H.
  - rewrite stored_entries_open. intros H. left. exact H.
  - unfold caches_after_store. intros H.
    apply (stored_entries_update _ _ _ e
             (fst e = url request
              /\ method request = "GET"
              /\ startsWith (url request) origin = true
              /\ includes (url request) "maps.app.goo.gl" = false
              /\ net request = Fulfilled (Some (snd e))
              /\ status (snd e) = 200%Z
              /\ type (snd e) = basic)) in H.
    + rewrite stored_entries_open in H. exact H.
    + intros c Hc. destruct (In_cache_put c _ _ e Hc) as [Hin | ->];
        [left; exact Hin | right].
      simpl. repeat split; assumption.
Qed.

(** X6: when the network request fails for a request that accepts
    "text/html" and no cache holds /index.html, the promise given to
    [respondWith] is fulfilled with no response at all; it is not rejected. *)
Theorem html_fallback_without_root_document (origin : string) (net : Network)
    (request : Request) (w : World) (failure : JsError) (accept : string) :
  method request = "GET" ->
  includes (url request) "maps.app.goo.gl" = false ->
  storage_match (caches w) (url request) = None ->
  net request = Rejected failure ->
  headers_get (headers request) "accept" = Some accept ->
  includes accept "text/html" = true ->
  storage_match (caches w) (origin ++ "/index.html") = None ->
  fst (on_fetch origin net request w) = RespondWith (Fulfilled None)
  /\ caches (snd (on_fetch origin net request w)) = caches w.
Proof.
  intros Hget Hmaps Hmiss Hnet Hacc Hhtml Hroot.
  rewrite (on_fetch_responds origin net request w Hget Hmaps).
  rewrite (respond_miss_unfold origin net request w Hget Hmiss).
  rewrite Hnet, Hacc, Hhtml.
  unfold caches_match, new_Request, resolve_url. simpl.
  rewrite Hroot. split; reflexivity.
Qed.

(** ** Installation: what it leaves alone and what it stores *)

Lemma cache_match_put_all_other (entries c : Cache) (v : string) :
  ~ In v (map fst entries) ->
  cache_match (cache_put_all c entries) v = cache_match c v.
Proof.
  intros Hv. rewrite cache_match_put_all, cache_match_absent; [reflexivity |].
  rewrite map_rev, <- in_rev. exact Hv.
Qed.

(** X7: install changes the answer of cache storage for no URL outside the
    manifest, touches no cache other than the current one and removes no
    cache. *)
Theorem install_leaves_other_entries_alone (origin : string) (net : Network)
    (w : World) (v other : string) :
  ~ In v (map url (manifest_requests origin)) ->
  other <> CACHE_NAME ->
  storage_match (caches (snd (on_install origin net w))) v =
    storage_match (caches w) v
  /\ find_cache (caches (snd (on_install origin net w))) other =
       find_cache (caches w) other
  /\ incl (names (caches w)) (names (caches (snd (on_install origin net w)))).
Proof.
  intros Hv Hother. rewrite install_caches.
  destruct (addAll_entries net (manifest_requests origin)) as [entries |] eqn:He.
  - split; [| split].
    + rewrite storage_match_update_other, storage_match_open; [reflexivity |].
      intros c. apply cache_match_put_all_other.
      rewrite (addAll_entries_keys _ _ _ He). exact Hv.
    + rewrite find_cache_update_other, find_cache_open_other;
        [reflexivity | exact Hother | exact Hother].
    + rewrite names_update. apply names_open_incl.
  - split; [apply storage_match_open | split].
    + apply find_cache_open_other. exact Hother.
    + apply names_open_incl.
Qed.

(** X8: whatever is in cache storage after install was either there before
    or is the URL of a manifest request with the response that the network
    delivered for it, and that response has a status from 200 to 299; a
    response with another status, such as the 0 of an opaque response, is
    never stored by install. *)
Theorem install_stores_only_delivered_ok (origin : string) (net : Network)
    (w : World) (e : string * Response) :
  In e (stored_entries (caches (snd (on_install origin net w)))) ->
  In e (stored_entries (caches w))
  \/ exists q, In q (manifest_requests origin)
               /\ fst e = url q
               /\ net q = Fulfilled (Some (snd e))
               /\ ok_status (snd e).
Proof.
  rewrite install_caches.
  destruct (addAll_entries net (manifest_requests origin)) as [entries |] eqn:He.
  - intros H.
    apply (stored_entries_update _ _ _ e
             (exists q, In q (manifest_requests origin)
                        /\ fst e = url q
                        /\ net q = Fulfilled (Some (snd e))
                        /\ ok_status (snd e))) in H.
    + rewrite stored_entries_open in H. exact H.
    + intros c Hc. destruct (In_cache_put_all entries c e Hc) as [Hin | Hin];
        [left; exact Hin | right].
      apply (addAll_entries_delivered net _ entries e He Hin).
  - rewrite stored_entries_open. intros H. left. exact H.
Qed.

(** ** Activation: what it asks for *)

Lemma cleanup_trace (l : list string) (w : World) :
  trace (snd (Promise_all (map cleanup_callback l) w)) =
  trace w ++ map CachesDelete (filter (fun n => negb (n =? CACHE_NAME)) l).
Proof.
  revert w. induction l as [| n l IH]; intros w; simpl.
  - rewrite app_nil_r. reflexivity.
  - unfold cleanup_callback at 1.
    destruct (n =? CACHE_NAME) eqn:En; simpl.
    + unfold Promise_resolve. specialize (IH w).
      destruct (Promise_all (map cleanup_callback l) w) as [res w2].
      simpl in *. exact IH.
    + unfold then_, caches_delete, Promise_resolve.
      set (w1 := set_caches (storage_delete (caches w) n)
                   (emit (CachesDelete n) w)).
      specialize (IH w1).
      destruct (Promise_all (map cleanup_callback l) w1) as [res w2].
      simpl in *. rewrite IH. rewrite <- app_assoc. reflexivity.
Qed.

(** X9: the calls of activation are, in this order: the listing of the
    caches, once; the claim of the clients, made at once, before the
    callback of the listing runs; then the deletion of every listed name
    that is not the current one, in the order listed.  It never asks for
    the deletion of the current cache. *)
Theorem activation_deletes_exactly_stale (w : World) :
  trace (snd (on_activate w)) =
    trace w
    ++ CachesKeys
       :: ClientsClaim
       :: map CachesDelete
            (filter (fun n => negb (n =? CACHE_NAME)) (names (caches w)))
  /\ ~ In (CachesDelete CACHE_NAME)
          (map CachesDelete
             (filter (fun n => negb (n =? CACHE_NAME)) (names (caches w)))).
Proof.
  split.
  - unfold on_activate, activate_cleanup, started, then_, caches_keys,
      clients_claim.
    change (map _ (names (caches w)))
      with (map cleanup_callback (names (caches w))).
    pose proof (cleanup_trace (names (caches w))
                  (emit ClientsClaim (emit CachesKeys w))) as Ht.
    destruct (Promise_all (map cleanup_callback (names (caches w)))
                (emit ClientsClaim (emit CachesKeys w))) as [res w2].
    simpl in *. rewrite Ht. rewrite <- !app_assoc. reflexivity.
  - intros Hin. apply in_map_iff in Hin. destruct Hin as [n [E Hn]].
    injection E as ->. apply filter_In in Hn. destruct Hn as [_ Hn].
    rewrite String.eqb_refl in Hn. discriminate.
Qed.

(** X10: when cache storage has no cache of the current name, activation
    leaves cache storage empty. *)
Theorem activation_without_current_cache (w : World) :
  has_cache (caches w) CACHE_NAME = false ->
  fst (on_activate w) = Fulfilled tt
  /\ caches (snd (on_activate w)) = [].
Proof.
  intros Hno. destruct (activate_caches w) as [Hres Hc].
  split; [exact Hres |]. rewrite Hc.
  apply filter_absent_name. intros Hin.
  apply has_cache_names in Hin. congruence.
Qed.

(** X11: activating twice leaves cache storage as activating once does. *)
Theorem activation_idempotent (w : World) :
  caches (snd (on_activate (snd (on_activate w)))) =
  caches (snd (on_activate w)).
Proof.
  rewrite (proj2 (activate_caches (snd (on_activate w)))).
  rewrite (proj2 (activate_caches w)).
  rewrite filter_after_filter. apply filter_ext. intros b. apply andb_diag.
Qed.

(** ** Install, activate, then fetch *)

Lemma forallb_refused {A} (f : A -> bool) (l : list A) (x : A) :
  In x l -> f x = false -> forallb f l = false.
Proof.
  induction l as [| y l IH]; simpl; intros Hin Hx; [contradiction |].
  destruct Hin as [-> | Hin]; [rewrite Hx; reflexivity |].
  rewrite (IH Hin Hx). apply andb_false_r.
Qed.

(** A first install whose batch is refused, and the activation after it,
    leave the current cache alone in cache storage, and empty. *)
Lemma first_install_caches (origin : string) (net : Network) (w : World)
    (q : Request) :
  In q (manifest_requests origin) ->
  accepted net q = false ->
  has_cache (caches w) CACHE_NAME = false ->
  caches (snd (on_activate (snd (on_install origin net w)))) =
    [(CACHE_NAME, [])].
Proof.
  intros Hq Hrefused Hno.
  rewrite (proj2 (activate_caches _)), install_caches.
  rewrite (addAll_entries_refused net _ (forallb_refused _ _ q Hq Hrefused)).
  unfold storage_open. rewrite Hno, filter_app.
  rewrite (filter_absent_name (caches w) CACHE_NAME).
  - reflexivity.
  - intros Hin. apply has_cache_names in Hin. congruence.
Qed.

(** X12: when the answer to one of the manifest requests is not acceptable
    to [addAll] (in a browser the opaque answer to a cross-origin request
    made in no-cors mode never is), a first install, on a cache storage
    without a cache of the current name, reports success, and after the
    activation that follows cache storage holds the current cache alone and
    that cache is empty: no URL is answered from cache storage. *)
Theorem first_install_stores_nothing (origin : string) (net : Network)
    (w : World) (q : Request) (u : string) :
  In q (manifest_requests origin) ->
  accepted net q = false ->
  has_cache (caches w) CACHE_NAME = false ->
  fst (on_install origin net w) = Fulfilled tt
  /\ caches (snd (on_activate (snd (on_install origin net w)))) =
       [(CACHE_NAME, [])]
  /\ storage_match (caches (snd (on_activate (snd (on_install origin net w)))))
       u = None.
Proof.
  intros Hq Hrefused Hno.
  split; [rewrite on_install_unfold; reflexivity |].
  rewrite (first_install_caches origin net w q Hq Hrefused Hno).
  split; reflexivity.
Qed.

(** X13: after such a first install and the activation that follows, a
    request that accepts "text/html" and cannot be fetched gets no response
    at all: the promise given to [respondWith] is fulfilled with the
    outcome of a lookup of /index.html that finds nothing. *)
Theorem offline_navigation_after_first_install (origin : string)
    (net later : Network) (w : World) (q : Request) (request : Request)
    (failure : JsError) (accept : string) :
  In q (manifest_requests origin) ->
  accepted net q = false ->
  has_cache (caches w) CACHE_NAME = false ->
  method request = "GET" ->
  includes (url request) "maps.app.goo.gl" = false ->
  later request = Rejected failure ->
  headers_get (headers request) "accept" = Some accept ->
  includes accept "text/html" = true ->
  fst (on_fetch origin later request
         (snd (on_activate (snd (on_install origin net w))))) =
    RespondWith (Fulfilled None).
Proof.
  intros Hq Hrefused Hno Hget Hmaps Hlater Hacc Hhtml.
  pose proof (first_install_caches origin net w q Hq Hrefused Hno) as Hc.
  set (w2 := snd (on_activate (snd (on_install origin net w)))) in *.
  assert (Hmiss : storage_match (caches w2) (url request) = None)
    by (rewrite Hc; reflexivity).
  rewrite (on_fetch_responds origin later request w2 Hget Hmaps).
  rewrite (respond_miss_unfold origin later request w2 Hget Hmiss).
  rewrite Hlater, Hacc, Hhtml.
  unfold caches_match. simpl. rewrite Hc. reflexivity.
Qed.

(** ** The message listener: the other messages *)

(** X14: a message whose data is falsy, or whose type is none of
    SKIP_WAITING, GET_VERSION and CACHE_URLS, is ignored: the listener
    finishes normally and the world is as before. *)
Theorem other_message_ignored (origin : string) (net : Network)
    (event : MessageEvent) (w : World) :
  has_type event "SKIP_WAITING" = false ->
  has_type event "GET_VERSION" = false ->
  has_type event "CACHE_URLS" = false ->
  on_message origin net event w = (Fulfilled tt, w).
Proof.
  intros H1 H2 H3. unfold on_message. rewrite H1, H2, H3. reflexivity.
Qed.

(** X15: a GET_VERSION message that comes without a port makes the listener
    throw a type error; no reply is posted and cache storage is as before. *)
Theorem get_version_without_port_throws (origin : string) (net : Network)
    (event : MessageEvent) (w : World) :
  has_type event "GET_VERSION" = true ->
  ports event = [] ->
  on_message origin net event w = (Rejected undefined_postMessage, w).
Proof.
  intros Ht Hp. unfold on_message, has_type in *.
  destruct (data event) as [d |]; [| discriminate].
  apply String.eqb_eq in Ht. rewrite Ht, Hp. reflexivity.
Qed.

Lemma new_requests_are_get (origin : string) (m : RequestMode)
    (urls : list string) :
  forallb (fun q => method q =? "GET")
    (map (fun u => new_Request origin u m) urls) = true.
Proof.
  induction urls as [| u urls IH]; simpl; [reflexivity | exact IH].
Qed.

Lemma on_message_cache_urls (origin : string) (net : Network)
    (event : MessageEvent) (w : World) :
  has_type event "CACHE_URLS" = true ->
  on_message origin net event w =
  match addAll_entries net (message_requests origin event) with
  | None =>
      (Rejected (TypeError "Request failed"),
       mkWorld (storage_open (caches w) CACHE_NAME)
         (cache_urls_trace origin event w))
  | Some entries =>
      if has_duplicate (map url (message_requests origin event))
      then (Rejected InvalidStateError,
            mkWorld (storage_open (caches w) CACHE_NAME)
              (cache_urls_trace origin event w))
      else (Fulfilled tt,
            mkWorld (storage_update (storage_open (caches w) CACHE_NAME)
                       CACHE_NAME (fun c => cache_put_all c entries))
              (cache_urls_trace origin event w))
  end.
Proof.
  intros Ht. unfold on_message.
  assert (H1 : has_type event "SKIP_WAITING" = false
               /\ has_type event "GET_VERSION" = false).
  { unfold has_type in *. destruct (data event) as [d |]; [| discriminate].
    apply String.eqb_eq in Ht. rewrite Ht. split; reflexivity. }
  destruct H1 as [H1 H2]. rewrite H1, H2, Ht.
  unfold then_, Promise_resolve, caches_open, cache_addAll.
  cbv beta iota zeta.
  change (map (fun u => new_Request origin u mode_cors) (event_urls event))
    with (message_requests origin event).
  unfold message_requests at 1. rewrite new_requests_are_get.
  cbv beta iota zeta. unfold negb.
  destruct (addAll_entries net (message_requests origin event)); [| reflexivity].
  destruct (has_duplicate (map url (message_requests origin event)));
    reflexivity.
Qed.

(** X16: when the answer to one of the requests of a CACHE_URLS message is
    not acceptable, the promise that the listener waits for is rejected
    (the rejection is not caught, unlike at install) and none of the URLs is
    stored: cache storage is what opening the current cache left. *)
Theorem cache_urls_failure_propagates (origin : string) (net : Network)
    (event : MessageEvent) (w : World) :
  has_type event "CACHE_URLS" = true ->
  forallb (accepted net) (message_requests origin event) = false ->
  fst (on_message origin net event w) = Rejected (TypeError "Request failed")
  /\ caches (snd (on_message origin net event w)) =
       storage_open (caches w) CACHE_NAME.
Proof.
  intros Ht Hall. rewrite (on_message_cache_urls origin net event w Ht).
  rewrite (addAll_entries_refused net _ Hall). split; reflexivity.
Qed.

Lemma plain_path_resolved (origin : string) (u : string) :
  plain_path u = true -> resolve_url origin u = (origin ++ u)%string.
Proof.
  unfold plain_path, resolve_url, startsWith.
  destruct u as [| c rest]; [discriminate |].
  intros H. apply andb_true_iff in H. destruct H as [Hc _].
  apply Ascii.eqb_eq in Hc. subst c. simpl.
  destruct rest; reflexivity.
Qed.

Lemma plain_paths_resolved (origin : string) (urls : list string) :
  forallb plain_path urls = true ->
  map url (map (fun u => new_Request origin u mode_cors) urls) =
  map (fun u => (origin ++ u)%string) urls.
Proof.
  induction urls as [| u urls IH]; simpl; intros H; [reflexivity |].
  apply andb_true_iff in H. destruct H as [Hu Hrest].
  rewrite (plain_path_resolved origin u Hu), (IH Hrest). reflexivity.
Qed.

Lemma NoDup_map_append (origin : string) (urls : list string) :
  NoDup urls -> NoDup (map (fun u => (origin ++ u)%string) urls).
Proof.
  intros Hnd. induction Hnd as [| u l Hu Hl IH]; simpl; constructor;
    [| exact IH].
  intros Hin. apply in_map_iff in Hin. destruct Hin as [u' [E Hu']].
  apply append_cancel_l in E. subst u'. contradiction.
Qed.

(** X17: for a CACHE_URLS message whose URLs are plain paths (strings that
    the browser's URL parser leaves as they are), no two of them the same,
    and all of them answered acceptably, the listener finishes normally and
    every one of the URLs is found in the current cache, under the origin
    followed by the path, with the response that the network gave. *)
Theorem cache_urls_stores_every_url (origin : string) (net : Network)
    (event : MessageEvent) (w : World) (u : string) :
  has_type event "CACHE_URLS" = true ->
  forallb plain_path (event_urls event) = true ->
  has_duplicate (event_urls event) = false ->
  forallb (accepted net) (message_requests origin event) = true ->
  In u (event_urls event) ->
  fst (on_message origin net event w) = Fulfilled tt
  /\ exists r c,
       net (new_Request origin u mode_cors) = Fulfilled (Some r)
       /\ find_cache (caches (snd (on_message origin net event w))) CACHE_NAME
          = Some c
       /\ cache_match c (origin ++ u) = Some r.
Proof.
  intros Ht Hplain Hnodup Hall Hu.
  assert (Hkeys : NoDup (map url (message_requests origin event))).
  { unfold message_requests. rewrite (plain_paths_resolved origin _ Hplain).
    apply NoDup_map_append. apply has_duplicate_NoDup. exact Hnodup. }
  assert (Hq : In (new_Request origin u mode_cors)
                 (message_requests origin event)).
  { unfold message_requests.
    apply (in_map (fun u' => new_Request origin u' mode_cors)). exact Hu. }
  assert (Hurl : url (new_Request origin u mode_cors) = (origin ++ u)%string).
  { simpl. apply plain_path_resolved.
    rewrite forallb_forall in Hplain. apply Hplain. exact Hu. }
  rewrite (on_message_cache_urls origin net event w Ht).
  destruct (addAll_entries_accepted net _ Hall) as [entries [He [Hk Hin]]].
  rewrite He, (proj2 (has_duplicate_NoDup _) Hkeys). split; [reflexivity |].
  destruct (Hin _ Hq) as [r [Hr Hqr]].
  destruct (proj1 (has_cache_find _ _) (has_cache_open (caches w) CACHE_NAME))
    as [c0 Hc0].
  exists r, (cache_put_all c0 entries).
  split; [apply addAll_accepts_delivered; exact Hr | split].
  - simpl. rewrite find_cache_update, Hc0. reflexivity.
  - rewrite <- Hurl, cache_match_put_all.
    rewrite (cache_match_in (rev entries) _ r); [reflexivity | |].
    + rewrite map_rev, Hk. apply NoDup_rev. exact Hkeys.
    + apply in_rev. rewrite rev_involutive. exact Hqr.
Qed.

(** What a message can do to cache storage. *)
Lemma on_message_caches (origin : string) (net : Network)
    (event : MessageEvent) (w : World) :
  caches (snd (on_message origin net event w)) = caches w
  \/ caches (snd (on_message origin net event w)) =
       storage_open (caches w) CACHE_NAME
  \/ exists entries,
       addAll_entries net (message_requests origin event) = Some entries
       /\ has_duplicate (map url (message_requests origin event)) = false
       /\ caches (snd (on_message origin net event w)) =
            storage_update (storage_open (caches w) CACHE_NAME) CACHE_NAME
              (fun c => cache_put_all c entries).
Proof.
  destruct (has_type event "CACHE_URLS") eqn:Ht.
  - rewrite (on_message_cache_urls origin net event w Ht).
    destruct (addAll_entries net (message_requests origin event))
      as [entries |] eqn:He; [| right; left; reflexivity].
    destruct (has_duplicate (map url (message_requests origin event))) eqn:Hd;
      [right; left; reflexivity |].
    right. right. exists entries. repeat split.
  - left. unfold on_message. rewrite Ht.
    unfold then_, Promise_resolve, skipWaiting, postMessage, throw.
    destruct (has_type event "SKIP_WAITING");
      destruct (has_type event "GET_VERSION");
      destruct (ports event); reflexivity.
Qed.

(** ** The notification click listener *)

(** X18: a click on the notification closes it, and opens the root page of
    the site exactly when the action is not 'close'; the outcome of the
    event is then that of opening the window. *)
Theorem notification_click_opens_unless_close (action : string)
    (opened : Settled unit) :
  (In (OpenWindow "/") (snd (on_notificationclick action opened))
   <-> action <> "close")
  /\ In NotificationClose (snd (on_notificationclick action opened))
  /\ (action <> "close" -> fst (on_notificationclick action opened) = opened).
Proof.
  unfold on_notificationclick.
  destruct (String.eqb_spec action "explore") as [-> | Hexp].
  - simpl. repeat split; try tauto; try discriminate.
  - destruct (String.eqb_spec action "close") as [-> | Hclose]; simpl.
    + repeat split; try tauto.
      intros [H | [H | []]]; discriminate.
    + repeat split; tauto.
Qed.

(** ** Invariants of the worker as a whole *)

Lemma on_sync_nothing (tag : string) (w : World) :
  on_sync tag w = (Fulfilled tt, w).
Proof.
  unfold on_sync, doBackgroundSync. destruct (tag =? "background-sync");
    reflexivity.
Qed.

Section Preserved.

(** A property of cache storage that every listener which touches the
    caches keeps. *)
Variable origin : string.
Variable P : CacheStorage -> Prop.

Hypothesis kept_by_install :
  forall net w, P (caches w) -> P (caches (snd (on_install origin net w))).
Hypothesis kept_by_activate :
  forall w, P (caches w) -> P (caches (snd (on_activate w))).
Hypothesis kept_by_fetch :
  forall net request w,
    P (caches w) -> P (caches (snd (on_fetch origin net request w))).
Hypothesis kept_by_message :
  forall net event w,
    P (caches w) -> P (caches (snd (on_message origin net event w))).

Lemma dispatch_preserves (e : Event) (h : Host) :
  P (caches (world h)) -> P (caches (world (dispatch origin e h))).
Proof.
  intros H. destruct e; simpl; auto.
  rewrite on_sync_nothing. exact H.
Qed.

Lemma run_preserves (events : list Event) (h : Host) :
  P (caches (world h)) -> P (caches (world (run origin events h))).
Proof.
  revert h. induction events as [| e events IH]; intros h H; simpl;
    [exact H |].
  apply IH. apply dispatch_preserves. exact H.
Qed.

End Preserved.

Lemma stored_ok_open (s : CacheStorage) (name : string) :
  stored_ok s -> stored_ok (storage_open s name).
Proof. unfold stored_ok. rewrite stored_entries_open. tauto. Qed.

Lemma stored_ok_put_all (s : CacheStorage) (net : Network)
    (reqs : list Request) (entries : Cache) :
  addAll_entries net reqs = Some entries ->
  stored_ok s ->
  stored_ok (storage_update s CACHE_NAME (fun c => cache_put_all c entries)).
Proof.
  intros He Hok e H.
  apply (stored_entries_update _ _ _ e (ok_status (snd e))) in H.
  - destruct H as [H | H]; [apply Hok; exact H | exact H].
  - intros c Hc. destruct (In_cache_put_all entries c e Hc) as [Hin | Hin];
      [left; exact Hin | right].
    destruct (addAll_entries_delivered net reqs entries e He Hin)
      as [q [_ [_ [_ Hq]]]].
    exact Hq.
Qed.

Lemma stored_ok_install (origin : string) (net : Network) (w : World) :
  stored_ok (caches w) -> stored_ok (caches (snd (on_install origin net w))).
Proof.
  intros Hok. rewrite install_caches.
  destruct (addAll_entries net (manifest_requests origin)) as [entries |] eqn:He.
  - apply (stored_ok_put_all _ net (manifest_requests origin)); [exact He |].
    apply stored_ok_open. exact Hok.
  - apply stored_ok_open. exact Hok.
Qed.

Lemma stored_ok_activate (w : World) :
  stored_ok (caches w) -> stored_ok (caches (snd (on_activate w))).
Proof.
  intros Hok e H. rewrite (proj2 (activate_caches w)) in H.
  apply Hok. apply (stored_entries_delete _ _ _ H).
Qed.

Lemma stored_ok_fetch (origin : string) (net : Network) (request : Request)
    (w : World) :
  stored_ok (caches w) ->
  stored_ok (caches (snd (on_fetch origin net request w))).
Proof.
  intros Hok.
  destruct (on_fetch_caches origin net request w)
    as [-> | [-> | [_ [_ [_ [_ [r [_ [Hs [_ ->]]]]]]]]]];
    [exact Hok | apply stored_ok_open; exact Hok |].
  unfold caches_after_store. intros e H.
  apply (stored_entries_update _ _ _ e (ok_status (snd e))) in H.
  - destruct H as [H | H]; [| exact H].
    rewrite stored_entries_open in H. apply Hok. exact H.
  - intros c Hc. destruct (In_cache_put c _ _ e Hc) as [Hin | ->];
      [left; exact Hin | right].
    unfold ok_status. simpl. rewrite Hs. lia.
Qed.

Lemma stored_ok_message (origin : string) (net : Network)
    (event : MessageEvent) (w : World) :
  stored_ok (caches w) ->
  stored_ok (caches (snd (on_message origin net event w))).
Proof.
  intros Hok.
  destruct (on_message_caches origin net event w)
    as [-> | [-> | [entries [He [_ ->]]]]].
  - exact Hok.
  - apply stored_ok_open. exact Hok.
  - apply (stored_ok_put_all _ net (message_requests origin event));
      [exact He |].
    apply stored_ok_open. exact Hok.
Qed.

(** X20: the worker never stores a response whose status is outside 200 to
    299: when every stored response has such a status, this is still so
    after any sequence of events.  In particular no listener ever stores a
    response of status 0, as an opaque response has. *)
Theorem run_stores_only_ok_status (origin : string) (events : list Event)
    (h : Host) (e : string * Response) :
  stored_ok (caches (world h)) ->
  In e (stored_entries (caches (world (run origin events h)))) ->
  (200 <= status (snd e) <= 299)%Z.
Proof.
  intros Hok Hin.
  revert e Hin. change (stored_ok (caches (world (run origin events h)))).
  revert Hok. apply run_preserves.
  - intros net w. apply stored_ok_install.
  - apply stored_ok_activate.
  - intros net request w. apply stored_ok_fetch.
  - intros net event w. apply stored_ok_message.
Qed.

Lemma has_cache_filter_current (s : CacheStorage) (name : string) :
  has_cache (filter (fun b => fst b =? name) s) name = has_cache s name.
Proof.
  induction s as [| [k c] s IH]; simpl; [reflexivity |].
  destruct (k =? name) eqn:E; simpl; rewrite ?E; [reflexivity | exact IH].
Qed.

Lemma has_current_activate (w : World) :
  has_cache (caches w) CACHE_NAME = true ->
  has_cache (caches (snd (on_activate w))) CACHE_NAME = true.
Proof.
  intros H. rewrite (proj2 (activate_caches w)), has_cache_filter_current.
  exact H.
Qed.

Lemma has_current_fetch (origin : string) (net : Network) (request : Request)
    (w : World) :
  has_cache (caches w) CACHE_NAME = true ->
  has_cache (caches (snd (on_fetch origin net request w))) CACHE_NAME = true.
Proof.
  intros H.
  destruct (on_fetch_caches origin net request w)
    as [-> | [-> | [_ [_ [_ [_ [r [_ [_ [_ ->]]]]]]]]]];
    [exact H | apply has_cache_open |].
  unfold caches_after_store. rewrite has_cache_update. apply has_cache_open.
Qed.

Lemma has_current_message (origin : string) (net : Network)
    (event : MessageEvent) (w : World) :
  has_cache (caches w) CACHE_NAME = true ->
  has_cache (caches (snd (on_message origin net event w))) CACHE_NAME = true.
Proof.
  intros H.
  destruct (on_message_caches origin net event w)
    as [-> | [-> | [entries [_ [_ ->]]]]].
  - exact H.
  - apply has_cache_open.
  - rewrite has_cache_update. apply has_cache_open.
Qed.

(** X21: once the install listener has run, the current cache exists after
    every later sequence of events: no listener deletes it, activation
    included. *)
Theorem current_cache_survives_after_install (origin : string) (net : Network)
    (events : list Event) (h : Host) :
  has_cache (caches (world (run origin (Install net :: events) h))) CACHE_NAME
  = true.
Proof.
  simpl.
  apply (run_preserves origin (fun s => has_cache s CACHE_NAME = true)).
  - intros net' w _. apply has_cache_install.
  - apply has_current_activate.
  - intros net' request w. apply has_current_fetch.
  - intros net' event w. apply has_current_message.
  - simpl. apply has_cache_install.
Qed.

Lemma only_current_open (s : CacheStorage) :
  only_current s -> only_current (storage_open s CACHE_NAME).
Proof.
  unfold only_current, storage_open. intros H name.
  destruct (has_cache s CACHE_NAME); [apply H |].
  unfold names. rewrite map_app, in_app_iff. simpl.
  intros [Hin | [<- | []]]; [apply H; exact Hin | reflexivity].
Qed.

Lemma only_current_update (s : CacheStorage) (f : Cache -> Cache) :
  only_current s -> only_current (storage_update s CACHE_NAME f).
Proof. unfold only_current. rewrite names_update. tauto. Qed.

Lemma only_current_activate (w : World) :
  only_current (caches (snd (on_activate w))).
Proof.
  intros name Hin. rewrite (proj2 (activate_caches w)) in Hin.
  unfold names in Hin. apply in_map_iff in Hin. destruct Hin as [b [<- Hb]].
  apply filter_In in Hb. apply String.eqb_eq. apply Hb.
Qed.

(** X22: the worker creates no cache under another name than the current
    one: once the activate listener has run, every cache in cache storage
    has the current name after every later sequence of events. *)
Theorem stale_caches_never_return (origin : string) (events : list Event)
    (h : Host) (name : string) :
  In name (names (caches (world (run origin (Activate :: events) h)))) ->
  name = "wedding-invitation-v1.0.0".
Proof.
  revert name. change (only_current
    (caches (world (run origin (Activate :: events) h)))).
  simpl. apply (run_preserves origin only_current).
  - intros net w H. rewrite install_caches.
    destruct (addAll_entries net (manifest_requests origin));
      [apply only_current_update |]; apply only_current_open; exact H.
  - intros w _. apply only_current_activate.
  - intros net request w H.
    destruct (on_fetch_caches origin net request w)
      as [-> | [-> | [_ [_ [_ [_ [r [_ [_ [_ ->]]]]]]]]]];
      [exact H | apply only_current_open; exact H |].
    unfold caches_after_store.
    apply only_current_update, only_current_open. exact H.
  - intros net event w H.
    destruct (on_message_caches origin net event w)
      as [-> | [-> | [entries [_ [_ ->]]]]].
    + exact H.
    + apply only_current_open. exact H.
    + apply only_current_update, only_current_open. exact H.
  - simpl. apply only_current_activate.
Qed.

(** ** More concrete runs *)

(** The root page held by a stale cache is served while offline. *)
Lemma cached_response_served_without_network_witness :
  method root_request = "GET"
  /\ includes (url root_request) "maps.app.goo.gl" = false
  /\ In ("wedding-invitation-v0.9.0", [("https://wedding.example/", shell)])
        (caches after_upgrade)
  /\ cache_match [("https://wedding.example/", shell)] (url root_request) =
       Some shell
  /\ exists r,
       storage_match (caches after_upgrade) (url root_request) = Some r
       /\ on_fetch site offline root_request after_upgrade =
            (RespondWith (Fulfilled (Some r)),
             emit (CachesMatch (url root_request)) after_upgrade).
Proof.
  assert (Hin : In ("wedding-invitation-v0.9.0",
                    [("https://wedding.example/", shell)])
                  (caches after_upgrade)) by (left; reflexivity).
  repeat (split; [first [reflexivity | exact Hin] |]).
  destruct (cached_response_served_without_network site offline root_request
              after_upgrade _ _ shell eq_refl eq_refl Hin eq_refl)
    as [r [Hr [Hrun _]]].
  exists r. split; [exact Hr | exact Hrun].
Defined.

Lemma miss_hands_over_network_response_witness :
  method styles_request = "GET"
  /\ includes (url styles_request) "maps.app.goo.gl" = false
  /\ storage_match (caches nothing_cached) (url styles_request) = None
  /\ always styles styles_request = Fulfilled (Some styles)
  /\ fst (on_fetch site (always styles) styles_request nothing_cached) =
       RespondWith (Fulfilled (Some styles)).
Proof.
  repeat (split; [reflexivity |]).
  exact (miss_hands_over_network_response site (always styles) styles_request
           nothing_cached (Some styles) eq_refl eq_refl eq_refl eq_refl).
Defined.

Lemma foreign_url_not_stored_witness :
  method library_request = "GET"
  /\ includes (url library_request) "maps.app.goo.gl" = false
  /\ storage_match (caches shell_cached) (url library_request) = None
  /\ always styles library_request = Fulfilled (Some styles)
  /\ startsWith (url library_request) site = false
  /\ caches (snd (on_fetch site (always styles) library_request shell_cached))
     = caches shell_cached.
Proof.
  repeat (split; [reflexivity |]).
  exact (proj2 (foreign_url_not_stored site (always styles) library_request
                  shell_cached styles eq_refl eq_refl eq_refl eq_refl eq_refl)).
Defined.

Lemma fetch_leaves_other_urls_alone_witness :
  "https://wedding.example/index.html" <> url styles_request
  /\ "fonts" <> CACHE_NAME
  /\ storage_match
       (caches (snd (on_fetch site (always styles) styles_request after_upgrade)))
       "https://wedding.example/index.html" =
     storage_match (caches after_upgrade) "https://wedding.example/index.html"
  /\ find_cache
       (caches (snd (on_fetch site (always styles) styles_request after_upgrade)))
       "fonts" = find_cache (caches after_upgrade) "fonts".
Proof.
  assert (H1 : "https://wedding.example/index.html" <> url styles_request)
    by discriminate.
  assert (H2 : "fonts" <> CACHE_NAME) by discriminate.
  split; [exact H1 | split; [exact H2 |]].
  destruct (fetch_leaves_other_urls_alone site (always styles) styles_request
              after_upgrade _ _ H1 H2) as [Hm [Hf _]].
  split; [exact Hm | exact Hf].
Defined.

Lemma fetch_stores_only_what_it_fetched_witness :
  In (url styles_request, styles)
     (stored_entries
        (caches (snd (on_fetch site (always styles) styles_request
                        nothing_cached))))
  /\ (In (url styles_request, styles) (stored_entries (caches nothing_cached))
      \/ (url styles_request = url styles_request
          /\ method styles_request = "GET"
          /\ startsWith (url styles_request) site = true
          /\ includes (url styles_request) "maps.app.goo.gl" = false
          /\ always styles styles_request = Fulfilled (Some styles)
          /\ status styles = 200%Z
          /\ type styles = basic)).
Proof.
  assert (Hin : In (url styles_request, styles)
                  (stored_entries
                     (caches (snd (on_fetch site (always styles) styles_request
                                     nothing_cached)))))
    by (left; reflexivity).
  split; [exact Hin |].
  exact (fetch_stores_only_what_it_fetched site (always styles) styles_request
           nothing_cached (url styles_request, styles) Hin).
Defined.

Lemma html_fallback_without_root_document_witness :
  method about_page = "GET"
  /\ includes (url about_page) "maps.app.goo.gl" = false
  /\ storage_match (caches nothing_cached) (url about_page) = None
  /\ offline about_page = Rejected (NetworkError "Failed to fetch")
  /\ headers_get (headers about_page) "accept" =
       Some "text/html,application/xhtml+xml,*/*;q=0.8"
  /\ includes "text/html,application/xhtml+xml,*/*;q=0.8" "text/html" = true
  /\ storage_match (caches nothing_cached) (site ++ "/index.html") = None
  /\ fst (on_fetch site offline about_page nothing_cached) =
       RespondWith (Fulfilled None).
Proof.
  repeat (split; [reflexivity |]).
  exact (proj1 (html_fallback_without_root_document site offline about_page
                  nothing_cached (NetworkError "Failed to fetch") _
                  eq_refl eq_refl eq_refl eq_refl eq_refl eq_refl eq_refl)).
Defined.

Lemma about_page_not_in_manifest :
  ~ In "https://wedding.example/about.html" (map url (manifest_requests site)).
Proof.
  simpl. intros H.
  repeat (destruct H as [H | H]; [discriminate H |]). exact H.
Defined.

Lemma install_leaves_other_entries_alone_witness :
  ~ In "https://wedding.example/about.html" (map url (manifest_requests site))
  /\ "fonts" <> CACHE_NAME
  /\ storage_match (caches (snd (on_install site (always shell) after_upgrade)))
       "https://wedding.example/about.html" =
     storage_match (caches after_upgrade) "https://wedding.example/about.html"
  /\ find_cache (caches (snd (on_install site (always shell) after_upgrade)))
       "fonts" = find_cache (caches after_upgrade) "fonts".
Proof.
  assert (H2 : "fonts" <> CACHE_NAME) by discriminate.
  split; [exact about_page_not_in_manifest | split; [exact H2 |]].
  destruct (install_leaves_other_entries_alone site (always shell) after_upgrade
              _ _ about_page_not_in_manifest H2) as [Hm [Hf _]].
  split; [exact Hm | exact Hf].
Defined.

Lemma install_stores_only_delivered_ok_witness :
  In ("https://wedding.example/index.html", shell)
     (stored_entries (caches (snd (on_install site (always shell) nothing_cached))))
  /\ (In ("https://wedding.example/index.html", shell)
         (stored_entries (caches nothing_cached))
      \/ exists q, In q (manifest_requests site)
                   /\ "https://wedding.example/index.html" = url q
                   /\ always shell q = Fulfilled (Some shell)
                   /\ ok_status shell).
Proof.
  assert (Hin : In ("https://wedding.example/index.html", shell)
                  (stored_entries
                     (caches (snd (on_install site (always shell)
                                     nothing_cached)))))
    by (right; left; reflexivity).
  split; [exact Hin |].
  exact (install_stores_only_delivered_ok site (always shell) nothing_cached
           _ Hin).
Defined.

Lemma activation_without_current_cache_witness :
  has_cache (caches only_stale) CACHE_NAME = false
  /\ caches (snd (on_activate only_stale)) = [].
Proof.
  split; [reflexivity |].
  exact (proj2 (activation_without_current_cache only_stale eq_refl)).
Defined.

Lemma maps_request_in_manifest : In maps_request (manifest_requests site).
Proof.
  unfold manifest_requests. apply in_map_iff.
  exists "https://maps.app.goo.gl/ctKUnnbbKhS6xQcz7".
  split; [reflexivity |]. unfold urlsToCache. simpl. tauto.
Defined.

(** A first install in a browser: the answers of the other origins are
    opaque. *)
Lemma first_install_stores_nothing_witness :
  In maps_request (manifest_requests site)
  /\ accepted other_origins_opaque maps_request = false
  /\ has_cache (caches only_stale) CACHE_NAME = false
  /\ caches (snd (on_activate
                    (snd (on_install site other_origins_opaque only_stale)))) =
       [(CACHE_NAME, [])]
  /\ storage_match
       (caches (snd (on_activate
                       (snd (on_install site other_origins_opaque only_stale)))))
       "https://wedding.example/index.html" = None.
Proof.
  split; [exact maps_request_in_manifest | split; [reflexivity |]].
  split; [reflexivity |].
  exact (proj2 (first_install_stores_nothing site other_origins_opaque
                  only_stale maps_request "https://wedding.example/index.html"
                  maps_request_in_manifest eq_refl eq_refl)).
Defined.

Lemma offline_navigation_after_first_install_witness :
  In maps_request (manifest_requests site)
  /\ accepted other_origins_opaque maps_request = false
  /\ has_cache (caches nothing_cached) CACHE_NAME = false
  /\ method about_page = "GET"
  /\ includes (url about_page) "maps.app.goo.gl" = false
  /\ offline about_page = Rejected (NetworkError "Failed to fetch")
  /\ headers_get (headers about_page) "accept" =
       Some "text/html,application/xhtml+xml,*/*;q=0.8"
  /\ includes "text/html,application/xhtml+xml,*/*;q=0.8" "text/html" = true
  /\ fst (on_fetch site offline about_page
            (snd (on_activate
                    (snd (on_install site other_origins_opaque
                            nothing_cached))))) =
       RespondWith (Fulfilled None).
Proof.
  split; [exact maps_request_in_manifest |].
  repeat (split; [reflexivity |]).
  exact (offline_navigation_after_first_install site other_origins_opaque
           offline nothing_cached maps_request about_page
           (NetworkError "Failed to fetch") _
           maps_request_in_manifest eq_refl eq_refl eq_refl eq_refl eq_refl
           eq_refl eq_refl).
Defined.

Lemma other_message_ignored_witness :
  has_type empty_message "SKIP_WAITING" = false
  /\ has_type empty_message "GET_VERSION" = false
  /\ has_type empty_message "CACHE_URLS" = false
  /\ on_message site offline empty_message shell_cached =
       (Fulfilled tt, shell_cached).
Proof.
  repeat (split; [reflexivity |]).
  exact (other_message_ignored site offline empty_message shell_cached
           eq_refl eq_refl eq_refl).
Defined.

Lemma get_version_without_port_throws_witness :
  has_type version_query_without_port "GET_VERSION" = true
  /\ ports version_query_without_port = []
  /\ on_message site offline version_query_without_port nothing_cached =
       (Rejected
          (TypeError
             "Cannot read properties of undefined (reading 'postMessage')"),
        nothing_cached).
Proof.
  repeat (split; [reflexivity |]).
  exact (get_version_without_port_throws site offline
           version_query_without_port nothing_cached eq_refl eq_refl).
Defined.

Lemma cache_urls_failure_propagates_witness :
  has_type cache_gallery_and_image "CACHE_URLS" = true
  /\ forallb (accepted image_host_down)
       (message_requests site cache_gallery_and_image) = false
  /\ fst (on_message site image_host_down cache_gallery_and_image shell_cached)
     = Rejected (TypeError "Request failed")
  /\ caches (snd (on_message site image_host_down cache_gallery_and_image
                    shell_cached)) = caches shell_cached.
Proof.
  split; [reflexivity | split; [reflexivity |]].
  destruct (cache_urls_failure_propagates site image_host_down
              cache_gallery_and_image shell_cached eq_refl eq_refl)
    as [Hres Hcaches].
  split; [exact Hres | exact Hcaches].
Defined.

Lemma cache_urls_stores_every_url_witness :
  has_type cache_gallery "CACHE_URLS" = true
  /\ forallb plain_path (event_urls cache_gallery) = true
  /\ has_duplicate (event_urls cache_gallery) = false
  /\ forallb (accepted (always shell)) (message_requests site cache_gallery)
     = true
  /\ In "/gallery.html" (event_urls cache_gallery)
  /\ fst (on_message site (always shell) cache_gallery nothing_cached) =
       Fulfilled tt.
Proof.
  assert (Hin : In "/gallery.html" (event_urls cache_gallery))
    by (left; reflexivity).
  repeat (split; [first [reflexivity | exact Hin] |]).
  exact (proj1 (cache_urls_stores_every_url site (always shell) cache_gallery
                  nothing_cached "/gallery.html"
                  eq_refl eq_refl eq_refl eq_refl Hin)).
Defined.

Lemma notification_click_opens_unless_close_witness :
  "explore" <> "close"
  /\ fst (on_notificationclick "explore" (Rejected (TypeError "not allowed")))
     = Rejected (TypeError "not allowed").
Proof.
  assert (H : "explore" <> "close") by discriminate.
  split; [exact H |].
  exact (proj2 (proj2 (notification_click_opens_unless_close "explore"
                         (Rejected (TypeError "not allowed")))) H).
Defined.

Lemma upgraded_host_ok : stored_ok (caches (world upgraded_host)).
Proof.
  intros e H. simpl in H.
  destruct H as [<- | [<- | []]]; unfold ok_status; simpl; lia.
Defined.

Lemma run_stores_only_ok_status_witness :
  stored_ok (caches (world upgraded_host))
  /\ In (url styles_request, styles)
        (stored_entries (caches (world (run site sample_events upgraded_host))))
  /\ (200 <= status styles <= 299)%Z.
Proof.
  assert (Hin : In (url styles_request, styles)
                  (stored_entries
                     (caches (world (run site sample_events upgraded_host)))))
    by (right; left; reflexivity).
  split; [exact upgraded_host_ok | split; [exact Hin |]].
  exact (run_stores_only_ok_status site sample_events upgraded_host _
           upgraded_host_ok Hin).
Defined.

Lemma stale_caches_never_return_witness :
  In CACHE_NAME
     (names (caches (world (run site (Activate :: sample_events) upgraded_host))))
  /\ CACHE_NAME = "wedding-invitation-v1.0.0".
Proof.
  assert (Hin : In CACHE_NAME
                  (names (caches (world (run site (Activate :: sample_events)
                                           upgraded_host)))))
    by (left; reflexivity).
  split; [exact Hin |].
  exact (stale_caches_never_return site sample_events upgraded_host _ Hin).
Defined.

(** ** The fetch listener: when the network is asked *)

Lemma on_fetch_effects (origin : string) (net : Network) (request : Request)
    (w : World) :
  exists l,
    trace (snd (on_fetch origin net request w)) = trace w ++ l
    /\ (l = []
        \/ l = [CachesMatch (url request)]
        \/ (storage_match (caches w) (url request) = None
            /\ exists rest,
                 l = CachesMatch (url request) :: NetFetch request :: rest
                 /\ filter is_NetFetch rest = [])).
Proof.
  destruct (String.eqb_spec (method request) "GET") as [Hget | Hm].
  2:{ exists []. split; [| left; reflexivity]. unfold on_fetch, on_fetch_as.
      destruct (String.eqb_spec (method request) "GET"); [contradiction |].
      simpl. rewrite app_nil_r. reflexivity. }
  destruct (includes (url request) "maps.app.goo.gl") eqn:Hmaps.
  { exists []. split; [| left; reflexivity]. unfold on_fetch, on_fetch_as. rewrite Hmaps.
    destruct (negb (method request =? "GET")); simpl; rewrite app_nil_r;
      reflexivity. }
  assert (Hcases : (exists hit, storage_match (caches w) (url request) = Some hit)
                   \/ storage_match (caches w) (url request) = None).
  { destruct (storage_match (caches w) (url request)) as [hit |];
      [left; exists hit; reflexivity | right; reflexivity]. }
  destruct Hcases as [[hit Hmatch] | Hmatch].
  { exists [CachesMatch (url request)]. split; [| right; left; reflexivity].
    rewrite (on_fetch_hit origin net request w hit Hget Hmaps Hmatch).
    reflexivity. }
  assert (Hplain : forall r : Settled (option Response),
            exists l,
              trace (snd (RespondWith r, after_miss request w)) = trace w ++ l
              /\ (l = []
                  \/ l = [CachesMatch (url request)]
                  \/ (storage_match (caches w) (url request) = None
                      /\ exists rest,
                           l = CachesMatch (url request) :: NetFetch request :: rest
                           /\ filter is_NetFetch rest = []))).
  { intros r. exists [CachesMatch (url request); NetFetch request].
    split.
    - unfold after_miss, emit. simpl. rewrite <- app_assoc. reflexivity.
    - right. right. split; [exact Hmatch |]. exists []. split; reflexivity. }
  destruct (net request) as [[r |] | failure] eqn:Hnet.
  - destruct (negb (status r =? 200)%Z
              || negb (ResponseType_eqb (type r) basic)) eqn:Hguard.
    + rewrite (on_fetch_responds origin net request w Hget Hmaps).
      rewrite (respond_miss_unfold origin net request w Hget Hmatch), Hnet, Hguard.
      apply Hplain.
    + apply orb_false_iff in Hguard. destruct Hguard as [Hs Ht].
      apply negb_false_iff in Hs, Ht. apply Z.eqb_eq in Hs.
      assert (Ht' : type r = basic)
        by (destruct (type r); try discriminate; reflexivity).
      destruct (startsWith (url request) origin) eqn:Hor.
      * destruct (varies_on_all r) eqn:Hvary.
        -- rewrite (on_fetch_put_refused origin net request w r
                      Hget Hmaps Hmatch Hnet Hs Ht' Hor Hvary).
           eexists. split; [reflexivity |].
           right. right. split; [exact Hmatch |]. eexists. split; reflexivity.
        -- rewrite (on_fetch_stores origin net request w r
                      Hget Hmaps Hmatch Hnet Hs Ht' Hor Hvary).
           eexists. split; [reflexivity |].
           right. right. split; [exact Hmatch |]. eexists. split; reflexivity.
      * rewrite (on_fetch_responds origin net request w Hget Hmaps).
        rewrite (respond_miss_unfold origin net request w Hget Hmatch), Hnet.
        rewrite Hs, Ht', Hor. apply Hplain.
  - rewrite (on_fetch_responds origin net request w Hget Hmaps).
    rewrite (respond_miss_unfold origin net request w Hget Hmatch), Hnet.
    apply Hplain.
  - rewrite (on_fetch_responds origin net request w Hget Hmaps).
    rewrite (respond_miss_unfold origin net request w Hget Hmatch), Hnet.
    destruct (headers_get (headers request) "accept") as [a |];
      [| apply Hplain].
    destruct (includes a "text/html"); [| apply Hplain].
    exists [CachesMatch (url request); NetFetch request;
            CachesMatch (origin ++ "/index.html")].
    split.
    + unfold caches_match, after_miss, emit. simpl.
      rewrite <- !app_assoc. reflexivity.
    + right. right. split; [exact Hmatch |]. eexists. split; reflexivity.
Qed.

(** X23: while it handles a fetch, the worker asks the network at most
    once, for the request itself and for nothing else, and only after cache
    storage had no answer for the request's URL. *)
Theorem network_asked_only_on_miss (origin : string) (net : Network)
    (request : Request) (w : World) :
  exists l,
    trace (snd (on_fetch origin net request w)) = trace w ++ l
    /\ length (filter is_NetFetch l) <= 1
    /\ forall q, In (NetFetch q) l ->
         q = request /\ storage_match (caches w) (url request) = None.
Proof.
  destruct (on_fetch_effects origin net request w)
    as [l [Ht [-> | [-> | [Hmiss [rest [-> Hrest]]]]]]].
  - exists []. split; [exact Ht |]. split; [simpl; lia |]. intros q [].
  - exists [CachesMatch (url request)]. split; [exact Ht |].
    split; [simpl; lia |]. intros q [H | []]. discriminate H.
  - exists (CachesMatch (url request) :: NetFetch request :: rest).
    split; [exact Ht |]. split.
    + simpl. rewrite Hrest. simpl. lia.
    + intros q [H | [H | H]].
      * discriminate H.
      * injection H as <-. split; [reflexivity | exact Hmiss].
      * exfalso.
        assert (Hf : In (NetFetch q) (filter is_NetFetch rest))
          by (apply filter_In; split; [exact H | reflexivity]).
        rewrite Hrest in Hf. exact Hf.
Qed.
